(** * Finger of God: a background auto-clicker (fingerofgod.py)

    A shallow embedding of the window-targeted click injection engine:
    [WindowsAPI] (window enumeration, coordinate conversion, posting of
    mouse messages) and the parts of [AutoClickerApp] that drive it (start
    and stop, the clicking loop, the position hotkey).

    Python integers are [Z]; Python strings are lists of code points; calls
    into user32, Tk, [keyboard] and [time] are recorded, in program order,
    in a log.  What the operating system and the other thread answer is
    given by an environment indexed by a logical clock that advances by
    one at every such interaction, so that a window may close, or the user
    may press Stop, between any two steps of the code. *)

From Stdlib Require Import ZArith NArith List String Ascii Bool Lia.
From Stdlib Require Import Permutation Sorted DecimalString.
Import ListNotations.
Open Scope Z_scope.

(* ------------------------------------------------------------------ *)
(** ** Python strings *)

Module Py.

(** A [str] is its sequence of Unicode code points. *)
Definition str := list N.

Definition lit (s : string) : str :=
  map N_of_ascii (list_ascii_of_string s).

Fixpoint str_eqb (a b : str) : bool :=
  match a, b with
  | [], [] => true
  | c :: a', d :: b' => N.eqb c d && str_eqb a' b'
  | _, _ => false
  end.

(** [a < b] on strings: lexicographic on code points. *)
Fixpoint str_ltb (a b : str) : bool :=
  match a, b with
  | _, [] => false
  | [], _ :: _ => true
  | c :: a', d :: b' =>
      if N.ltb c d then true
      else if N.ltb d c then false
      else str_ltb a' b'
  end.

(** [str.isspace] on one character: the code points CPython treats as
    whitespace, which are the ones [str.strip()] removes. *)
Definition isspace (c : N) : bool :=
  ((9 <=? c) && (c <=? 13) || (28 <=? c) && (c <=? 32)
   || (c =? 133) || (c =? 160) || (c =? 5760)
   || (8192 <=? c) && (c <=? 8202)
   || (c =? 8232) || (c =? 8233) || (c =? 8239) || (c =? 8287)
   || (c =? 12288))%N.

Fixpoint lstrip_by (p : N -> bool) (s : str) : str :=
  match s with
  | [] => []
  | c :: s' => if p c then lstrip_by p s' else s
  end.

Definition rstrip_by (p : N -> bool) (s : str) : str :=
  rev (lstrip_by p (rev s)).

(** [s.strip()] *)
Definition strip (s : str) : str := rstrip_by isspace (lstrip_by isspace s).

(** [s.rstrip('\x00')] *)
Definition rstrip_nul (s : str) : str := rstrip_by (N.eqb 0) s.

(** [str(n)] for an [int] *)
Definition str_of_int (n : Z) : str := lit (NilZero.string_of_int (Z.to_int n)).

(** [bool(n)] for an [int] *)
Definition bool_of_int (n : Z) : bool := negb (n =? 0).

(** Exceptions, with the message [str(e)] shows. *)
Inductive exn :=
| ValueError (msg : str)
| AttributeError (msg : str)
| OtherError (msg : str).

Definition str_of_exn (e : exn) : str :=
  match e with
  | ValueError m | AttributeError m | OtherError m => m
  end.

Inductive result (A : Type) :=
| Ok (a : A)
| Raise (e : exn).
Arguments Ok {A} a.
Arguments Raise {A} e.

(** [s.startswith(p)] *)
Fixpoint is_prefix (p s : str) : bool :=
  match p, s with
  | [], _ => true
  | _ :: _, [] => false
  | c :: p', d :: s' => N.eqb c d && is_prefix p' s'
  end.

(** [sep in s] *)
Fixpoint contains (sep s : str) : bool :=
  is_prefix sep s ||
  match s with
  | [] => false
  | _ :: s' => contains sep s'
  end.

(** [s.split(sep)] for a non-empty [sep]: the text is scanned from the
    left; where [sep] starts, the piece gathered so far is closed and
    the characters of [sep] are passed over ([skip] counts the ones
    still to pass); the last piece is closed at the end. *)
Fixpoint split_from (sep : str) (skip : nat) (piece : str) (s : str) : list str :=
  match s with
  | [] => [rev piece]
  | c :: s' =>
      match skip with
      | S skip' => split_from sep skip' piece s'
      | O =>
          if is_prefix sep s
          then rev piece :: split_from sep (List.length sep - 1) [] s'
          else split_from sep 0 (c :: piece) s'
      end
  end.

Definition split (sep s : str) : list str := split_from sep 0 [] s.

(** [s.rstrip(chars)] *)
Definition rstrip_chars (chars s : str) : str :=
  rstrip_by (fun c => existsb (N.eqb c) chars) s.

End Py.
Import Py.

(** [c_long] on Windows: 32 bits, signed; storing wraps around. *)
Definition c_long (n : Z) : Z := (n + 2 ^ 31) mod 2 ^ 32 - 2 ^ 31.

(* ------------------------------------------------------------------ *)
(** ** Data model *)

Record WindowInfo := { hwnd : Z; title : str }.

Record ClickPosition := { x : Z; y : Z }.

(** [WindowInfo.__str__] and [ClickPosition.__str__] *)
Definition WindowInfo_str (w : WindowInfo) : str :=
  title w ++ lit " (" ++ str_of_int (hwnd w) ++ lit ")".

Definition ClickPosition_str (p : ClickPosition) : str :=
  lit "(" ++ str_of_int (x p) ++ lit ", " ++ str_of_int (y p) ++ lit ")".

(** The attributes of an [AutoClickerApp] the engine reads and writes.
    [click_type_var] and [delay_var] hold what the two Tk variables
    return from [get()]. *)
Record App := {
  is_running : bool;
  click_position : option ClickPosition;
  selected_window : option WindowInfo;
  position_selection_active : bool;
  click_type_var : str;
  delay_var : str
}.

(* ------------------------------------------------------------------ *)
(** ** The platform: calls, answers, and the monad of the code *)

Inductive widget := select_position_btn | position_label | toggle_btn | status_label.

Inductive box := showwarning | showerror.

(** What [root.after] is asked to run on the UI thread. *)
Inductive callback :=
| handle_clicking_error (error_message : str).

(** One entry of the log per call that leaves the program. *)
Inductive event :=
| EvIsWindow (h : Z)
| EvIsWindowVisible (h : Z)
| EvGetWindowTextLengthW (h : Z)
| EvGetWindowTextW (h : Z) (nMaxCount : Z)
| EvEnumWindows
| EvScreenToClient (h : Z) (px py : Z)
| EvPostMessageW (h : Z) (Msg wParam lParam : Z)
| EvGetCursorPos
| EvSleep (ms : Z)
| EvAfter (ms : Z) (cb : callback)
| EvThreadStart
| EvAddHotkey (key : str)
| EvRemoveHotkey (key : str)
| EvMessagebox (kind : box) (caption message : str)
| EvConfig (w : widget) (options : list (string * str))
| EvIconify
| EvDeiconify
| EvLift
| EvFocusSet.

(** The state of the operating system at one instant. *)
Record OS := {
  IsWindow : Z -> Z;
  IsWindowVisible : Z -> Z;
  GetWindowTextLengthW : Z -> Z;
  (** the text [GetWindowTextW] has to copy *)
  window_text : Z -> str;
  (** the handles [EnumWindows] passes to its callback, in order *)
  top_level_windows : list Z;
  (** the point [ScreenToClient] leaves in the structure it is given *)
  ScreenToClient : Z -> Z * Z -> Z * Z;
  (** the BOOL [PostMessageW] returns: zero when the post failed *)
  PostMessageW : Z -> Z -> Z -> Z -> Z;
  (** the point [GetCursorPos] stores *)
  GetCursorPos : Z * Z
}.

(** The environment of a thread: the operating system, and the
    application object as the other thread has left it, at each tick. *)
Record Env := {
  os : nat -> OS;
  self : nat -> App
}.

Record World := { clock : nat; log : list event }.

Definition M (A : Type) : Type := Env -> World -> result A * World.

Definition ret {A} (a : A) : M A := fun _ w => (Ok a, w).

Definition bind {A B} (m : M A) (k : A -> M B) : M B :=
  fun env w =>
    match m env w with
    | (Ok a, w') => k a env w'
    | (Raise e, w') => (Raise e, w')
    end.

Definition raise {A} (e : exn) : M A := fun _ w => (Raise e, w).

(** [try: m  except Exception as e: handler e] *)
Definition try_except {A} (m : M A) (handler : exn -> M A) : M A :=
  fun env w =>
    match m env w with
    | (Ok a, w') => (Ok a, w')
    | (Raise e, w') => handler e env w'
    end.

Declare Scope py_scope.
Delimit Scope py_scope with py.
Notation "x <- m ;; k" := (bind m (fun x => k))
  (at level 61, m at next level, right associativity) : py_scope.
Notation "' pat <- m ;; k" := (bind m (fun x => match x with pat => k end))
  (at level 61, pat pattern, m at next level, right associativity) : py_scope.
Notation "m ;; k" := (bind m (fun _ => k))
  (at level 61, right associativity) : py_scope.
Open Scope py_scope.

(** A call that leaves the program: logged, answered by the operating
    system as it is now, and one tick long. *)
Definition call {A} (ev : event) (answer : OS -> A) : M A :=
  fun env w =>
    (Ok (answer (os env (clock w))),
     {| clock := S (clock w); log := log w ++ [ev] |}).

Definition emit (ev : event) : M unit := call ev (fun _ => tt).

(** A read of an attribute of [self] from the clicking thread: it sees
    what the UI thread has written by now, and is one tick long. *)
Definition read {A} (attr : App -> A) : M A :=
  fun env w =>
    (Ok (attr (self env (clock w))),
     {| clock := S (clock w); log := log w |}).

Definition lift {A} (r : result A) : M A := fun _ w => (r, w).

(** [time.sleep], its argument in milliseconds. *)
Definition sleep (ms : Z) : M unit :=
  if ms <? 0 then raise (ValueError (lit "sleep length must be non-negative"))
  else emit (EvSleep ms).

(* ------------------------------------------------------------------ *)
(** ** The built-in [sorted] *)

(** [sorted(l, key=key)]: the keys are compared with [<] only and equal
    keys keep their order, which fixes the result whatever the sorting
    algorithm is.  Here each element is inserted, from the last to the
    first, in front of the first element whose key is not smaller. *)
Section Sorted.
Context {A : Type} (key : A -> str).

Fixpoint insert_by (a : A) (l : list A) : list A :=
  match l with
  | [] => [a]
  | b :: l' =>
      if str_ltb (key b) (key a) then b :: insert_by a l'
      else a :: l
  end.

Definition sorted_by (l : list A) : list A := fold_right insert_by [] l.

End Sorted.

(* ------------------------------------------------------------------ *)
(** ** class WindowsAPI *)

Module WindowsAPI.

Definition WM_LBUTTONDOWN := 0x0201.
Definition WM_LBUTTONUP := 0x0202.
Definition WM_RBUTTONDOWN := 0x0204.
Definition WM_RBUTTONUP := 0x0205.

Definition get_cursor_position : M (Z * Z) :=
  ' (px, py) <- call EvGetCursorPos GetCursorPos ;;
  ret (c_long px, c_long py).

Definition screen_to_client (hwnd x y : Z) : M (Z * Z) :=
  let point := (c_long x, c_long y) in
  ' (px, py) <- call (EvScreenToClient hwnd (fst point) (snd point))
                     (fun o => ScreenToClient o hwnd point) ;;
  ret (c_long px, c_long py).

Definition is_window_valid (hwnd : Z) : M bool :=
  r <- call (EvIsWindow hwnd) (fun o => IsWindow o hwnd) ;;
  ret (bool_of_int r).

Definition is_window_visible (hwnd : Z) : M bool :=
  r <- call (EvIsWindowVisible hwnd) (fun o => IsWindowVisible o hwnd) ;;
  ret (bool_of_int r).

(** The buffer of [n] WCHARs, zeroed, after [GetWindowTextW] has copied
    at most [n - 1] characters of the text into it. *)
Definition fill_buffer (n : nat) (text : str) : str :=
  let copied := firstn (n - 1) text in
  copied ++ repeat 0%N (n - List.length copied).

Definition get_window_text (hwnd : Z) : M str :=
  length <- call (EvGetWindowTextLengthW hwnd)
                 (fun o => GetWindowTextLengthW o hwnd) ;;
  if length <=? 0 then ret []
  else
    buffer <- call (EvGetWindowTextW hwnd (length + 1))
                   (fun o => fill_buffer (Z.to_nat (length + 1)) (window_text o hwnd)) ;;
    ret (rstrip_nul buffer).

(** The position of a mouse message. *)
Definition make_lParam (client_x client_y : Z) : Z :=
  Z.lor (Z.shiftl client_y 16) (Z.land client_x 0xFFFF).

(** [windll.user32.PostMessageW]: the call and its answer.  How ctypes
    marshals the four integers is not part of the model. *)
Definition post (hwnd Msg wParam lParam : Z) : M Z :=
  call (EvPostMessageW hwnd Msg wParam lParam)
       (fun o => PostMessageW o hwnd Msg wParam lParam).

Definition send_mouse_click (hwnd x y : Z) (click_type : str) : M unit :=
  valid <- is_window_valid hwnd ;;
  if negb valid then raise (ValueError (lit "Invalid window handle"))
  else
    ' (client_x, client_y) <- screen_to_client hwnd x y ;;
    let lParam := make_lParam client_x client_y in
    if str_eqb click_type (lit "Left Click") then
      _ <- post hwnd WM_LBUTTONDOWN 1 lParam ;;
      sleep 10 ;;
      _ <- post hwnd WM_LBUTTONUP 0 lParam ;;
      ret tt
    else if str_eqb click_type (lit "Right Click") then
      _ <- post hwnd WM_RBUTTONDOWN 2 lParam ;;
      sleep 10 ;;
      _ <- post hwnd WM_RBUTTONUP 0 lParam ;;
      ret tt
    else if str_eqb click_type (lit "Double Click") then
      _ <- post hwnd WM_LBUTTONDOWN 1 lParam ;;
      _ <- post hwnd WM_LBUTTONUP 0 lParam ;;
      sleep 50 ;;
      _ <- post hwnd WM_LBUTTONDOWN 1 lParam ;;
      _ <- post hwnd WM_LBUTTONUP 0 lParam ;;
      ret tt
    else ret tt.

Section Enumerate.
(** [str.lower], on any string. *)
Variable lower : str -> str.

(** [enum_callback]: appends to [windows] and returns [True]. *)
Definition enum_callback (windows : list WindowInfo) (hwnd : Z)
  : M (list WindowInfo) :=
  visible <- is_window_visible hwnd ;;
  if visible then
    title <- get_window_text hwnd ;;
    match strip title with
    | [] => ret windows
    | _ :: _ => ret (windows ++ [{| hwnd := hwnd; title := title |}])
    end
  else ret windows.

Fixpoint for_each_window (windows : list WindowInfo) (handles : list Z)
  : M (list WindowInfo) :=
  match handles with
  | [] => ret windows
  | h :: rest =>
      windows' <- enum_callback windows h ;;
      for_each_window windows' rest
  end.

(** [WindowsAPI.enumerate_windows] *)
Definition enumerate_windows : M (list WindowInfo) :=
  handles <- call EvEnumWindows top_level_windows ;;
  windows <- for_each_window [] handles ;;
  ret (sorted_by (fun w => lower (title w)) windows).

End Enumerate.

End WindowsAPI.

(* ------------------------------------------------------------------ *)
(** ** class AutoClickerApp *)

Module AutoClickerApp.

(** How a run of the clicking thread ended. *)
Inductive loop_end :=
| Stopped       (** [is_running] was found false *)
| TargetLost    (** the window was found closed: [break] *)
| Failed (e : exn)  (** an exception reached the [except] clause *)
| Unfinished.   (** still looping when the fuel ran out *)

Definition set_is_running (b : bool) (a : App) : App :=
  {| is_running := b;
     click_position := click_position a;
     selected_window := selected_window a;
     position_selection_active := position_selection_active a;
     click_type_var := click_type_var a;
     delay_var := delay_var a |}.

Definition set_click_position (p : option ClickPosition) (a : App) : App :=
  {| is_running := is_running a;
     click_position := p;
     selected_window := selected_window a;
     position_selection_active := position_selection_active a;
     click_type_var := click_type_var a;
     delay_var := delay_var a |}.

Definition set_position_selection_active (b : bool) (a : App) : App :=
  {| is_running := is_running a;
     click_position := click_position a;
     selected_window := selected_window a;
     position_selection_active := b;
     click_type_var := click_type_var a;
     delay_var := delay_var a |}.

Definition _update_status (message : str) (is_error is_success : bool) : M unit :=
  let '(icon, style) :=
    if is_error then (lit "ERROR", lit "Error.TLabel")
    else if is_success then (lit "SUCCESS", lit "Success.TLabel")
    else (lit "INFO", lit "Status.TLabel") in
  emit (EvConfig status_label
          [("text"%string, icon ++ lit ": " ++ message); ("style"%string, style)]).

Definition start_position_selection (a : App) : M App :=
  if position_selection_active a then ret a
  else
    let a := set_position_selection_active true a in
    emit (EvConfig select_position_btn
            [("state"%string, lit "disabled");
             ("text"%string, lit "Move mouse and press F8")]) ;;
    _update_status (lit "Move your mouse to the desired position and press F8")
                   false false ;;
    emit EvIconify ;;
    emit (EvAddHotkey (lit "F8")) ;;
    ret a.

Definition _handle_position_hotkey (a : App) : M App :=
  if position_selection_active a then
    ' (x, y) <- WindowsAPI.get_cursor_position ;;
    let p := {| x := x; y := y |} in
    let a := set_click_position (Some p) a in
    emit (EvConfig position_label
            [("text"%string, lit "Position: " ++ ClickPosition_str p)]) ;;
    emit (EvConfig select_position_btn
            [("state"%string, lit "normal");
             ("text"%string, lit "Select Position (F8)")]) ;;
    let a := set_position_selection_active false a in
    emit (EvRemoveHotkey (lit "F8")) ;;
    emit EvDeiconify ;;
    emit EvLift ;;
    emit EvFocusSet ;;
    _update_status (lit "Position selected successfully!") false true ;;
    ret a
  else ret a.

Definition _start_clicking (a : App) : M App :=
  match selected_window a with
  | None =>
      emit (EvMessagebox showwarning (lit "No Window Selected")
              (lit "Please select a target window first!")) ;;
      ret a
  | Some window =>
      match click_position a with
      | None =>
          emit (EvMessagebox showwarning (lit "No Position Selected")
                  (lit "Please select a click position first!")) ;;
          ret a
      | Some _ =>
          valid <- WindowsAPI.is_window_valid (hwnd window) ;;
          if negb valid then
            emit (EvMessagebox showerror (lit "Invalid Window")
                    (lit "The selected window is no longer valid. Please refresh the window list.")) ;;
            ret a
          else
            let a := set_is_running true a in
            emit (EvConfig toggle_btn [("text"%string, lit "Stop Auto Clicking (F6)")]) ;;
            _update_status (lit "Auto-clicking started...") false false ;;
            emit EvThreadStart ;;
            ret a
      end
  end.

Definition _stop_clicking (a : App) : M App :=
  let a := set_is_running false a in
  emit (EvConfig toggle_btn [("text"%string, lit "Start Auto Clicking (F6)")]) ;;
  _update_status (lit "Auto-clicking stopped") false false ;;
  ret a.

Definition toggle_clicking (a : App) : M App :=
  if is_running a then _stop_clicking a else _start_clicking a.

Definition _handle_clicking_error (error_message : str) (a : App) : M App :=
  let a := set_is_running false a in
  emit (EvConfig toggle_btn [("text"%string, lit "Start Auto Clicking (F6)")]) ;;
  _update_status error_message true false ;;
  emit (EvMessagebox showerror (lit "Auto-Clicking Error") error_message) ;;
  ret a.

Section Loop.
(** [int], on any string: the integer, or the exception it raises. *)
Variable int : str -> result Z.

(** [self.selected_window.hwnd], [self.click_position.x] and [.y], read
    by the clicking thread: an AttributeError when the object is [None]. *)
Definition read_attr {A B} (obj : App -> option A) (attr : A -> B)
    (name : string) : M B :=
  o <- read obj ;;
  match o with
  | Some v => ret (attr v)
  | None =>
      raise (AttributeError
               (lit "'NoneType' object has no attribute '" ++ lit name ++ lit "'"))
  end.

(** One turn of [while self.is_running:]: the test and the body.  [None]
    when the body ran to its end, so that the loop goes round again. *)
Definition iteration : M (option loop_end) :=
  running <- read is_running ;;
  if running then
    h <- read_attr selected_window hwnd "hwnd" ;;
    valid <- WindowsAPI.is_window_valid h ;;
    if negb valid then
      emit (EvAfter 0 (handle_clicking_error (lit "Target window closed"))) ;;
      ret (Some TargetLost)
    else
      h <- read_attr selected_window hwnd "hwnd" ;;
      px <- read_attr click_position x "x" ;;
      py <- read_attr click_position y "y" ;;
      click_type <- read click_type_var ;;
      WindowsAPI.send_mouse_click h px py click_type ;;
      delay <- read delay_var ;;
      delay_ms <- lift (int delay) ;;
      sleep delay_ms ;;
      ret None
  else ret (Some Stopped).

(** The loop; [fuel] bounds the number of turns. *)
Fixpoint while_is_running (fuel : nat) : M loop_end :=
  match fuel with
  | O => ret Unfinished
  | S fuel' =>
      r <- iteration ;;
      match r with
      | Some e => ret e
      | None => while_is_running fuel'
      end
  end.

(** [_clicking_loop]: the loop inside its [try], and the [except] clause
    that schedules the error report.  The log records the report with
    the message the lambda is written to build from [e]; the lambda
    itself runs later, on the UI thread. *)
Definition _clicking_loop (fuel : nat) : M loop_end :=
  try_except (while_is_running fuel)
    (fun e =>
       emit (EvAfter 0 (handle_clicking_error
                          (lit "Clicking error: " ++ str_of_exn e))) ;;
       ret (Failed e)).

End Loop.
Section Widgets.
(** [int] and [str.lower], on any string. *)
Variable int : str -> result Z.
Variable lower : str -> str.

Definition set_selected_window (o : option WindowInfo) (a : App) : App :=
  {| is_running := is_running a;
     click_position := click_position a;
     selected_window := o;
     position_selection_active := position_selection_active a;
     click_type_var := click_type_var a;
     delay_var := delay_var a |}.

(** [_validate_delay]: only a ValueError is caught. *)
Definition _validate_delay (value : str) : result bool :=
  match value with
  | [] => Ok true
  | _ :: _ =>
      match int value with
      | Ok delay => Ok ((1 <=? delay) && (delay <=? 999999))
      | Raise (ValueError _) => Ok false
      | Raise e => Raise e
      end
  end.

(** [refresh_window_list]: the value is the lines of the list box when
    the call returns, one per window; the list box was emptied before
    anything could fail. *)
Definition refresh_window_list : M (list str) :=
  try_except
    (windows <- WindowsAPI.enumerate_windows lower ;;
     _update_status
       (lit "Found " ++ str_of_int (Z.of_nat (List.length windows)) ++ lit " windows")
       false false ;;
     ret (map WindowInfo_str windows))
    (fun e =>
       _update_status (lit "Error refreshing windows: " ++ str_of_exn e)
                      true false ;;
       ret []).

(** [_on_window_select]: [lines] is what the list box holds and
    [selection] what [curselection()] returns; a line the list box does
    not have reads as the empty string. *)
Definition _on_window_select (lines : list str) (selection : list nat) (a : App)
  : M App :=
  match selection with
  | [] => ret a
  | index :: _ =>
      let window_text := nth index lines [] in
      hwnd <- lift (int (rstrip_chars (lit ")")
                           (last (split (lit "(") window_text) []))) ;;
      let title := hd [] (split (lit " (") window_text) in
      let a := set_selected_window (Some {| hwnd := hwnd; title := title |}) a in
      _update_status (lit "Selected window: " ++ title) false false ;;
      ret a
  end.

End Widgets.

End AutoClickerApp.

(* ------------------------------------------------------------------ *)
(** ** Vocabulary of the statements *)

(** The handle is a window at this instant: [is_window_valid] is true. *)
Definition valid_at (env : Env) (t : nat) (h : Z) : bool :=
  bool_of_int (IsWindow (os env t) h).

(** The client point [screen_to_client] returns when called at tick [t]. *)
Definition client_point (env : Env) (t : nat) (h px py : Z) : Z * Z :=
  let '(cx, cy) := ScreenToClient (os env t) h (c_long px, c_long py) in
  (c_long cx, c_long cy).

(** The part of a log written after the log [before]. *)
Definition events_since (before : World) (after : World) : list event :=
  skipn (List.length (log before)) (log after).

Definition is_post (ev : event) : bool :=
  match ev with EvPostMessageW _ _ _ _ => true | _ => false end.

Definition is_conversion (ev : event) : bool :=
  match ev with EvScreenToClient _ _ _ => true | _ => false end.

Definition is_thread_start (ev : event) : bool :=
  match ev with EvThreadStart => true | _ => false end.

Definition is_messagebox (ev : event) : bool :=
  match ev with EvMessagebox _ _ _ => true | _ => false end.

Definition is_cursor_sample (ev : event) : bool :=
  match ev with EvGetCursorPos => true | _ => false end.

(** The time asked of [time.sleep] in a log, in milliseconds. *)
Fixpoint sleep_total (evs : list event) : Z :=
  match evs with
  | [] => 0
  | EvSleep ms :: evs' => ms + sleep_total evs'
  | _ :: evs' => sleep_total evs'
  end.

(** The same environment, [PostMessageW] answering as [answers] says. *)
Definition with_PostMessageW (answers : nat -> Z -> Z -> Z -> Z -> Z) (env : Env) : Env :=
  {| os := fun t =>
       {| IsWindow := IsWindow (os env t);
          IsWindowVisible := IsWindowVisible (os env t);
          GetWindowTextLengthW := GetWindowTextLengthW (os env t);
          window_text := window_text (os env t);
          top_level_windows := top_level_windows (os env t);
          ScreenToClient := ScreenToClient (os env t);
          PostMessageW := answers t;
          GetCursorPos := GetCursorPos (os env t) |};
     self := self env |}.

(** The wait between the messages of one click. *)
Definition click_gap (click_type : str) : Z :=
  if str_eqb click_type (lit "Left Click") then 10
  else if str_eqb click_type (lit "Right Click") then 10
  else if str_eqb click_type (lit "Double Click") then 50
  else 0.

(** The low and the high word of a message parameter. *)
Definition LOWORD (l : Z) : Z := Z.land l 0xFFFF.
Definition HIWORD (l : Z) : Z := Z.land (Z.shiftr l 16) 0xFFFF.

(** A 16-bit word read as a signed coordinate. *)
Definition signed16 (n : Z) : Z := if n <? 2 ^ 15 then n else n - 2 ^ 16.

(** The messages and waits of one click, by kind, as the specification
    lists them: down, 10 ms, up for the left and the right button; down,
    up, 50 ms, down, up for a double click. *)
Definition click_sequence (click_type : str) (h lParam : Z) : list event :=
  if str_eqb click_type (lit "Left Click") then
    [EvPostMessageW h WindowsAPI.WM_LBUTTONDOWN 1 lParam; EvSleep 10;
     EvPostMessageW h WindowsAPI.WM_LBUTTONUP 0 lParam]
  else if str_eqb click_type (lit "Right Click") then
    [EvPostMessageW h WindowsAPI.WM_RBUTTONDOWN 2 lParam; EvSleep 10;
     EvPostMessageW h WindowsAPI.WM_RBUTTONUP 0 lParam]
  else if str_eqb click_type (lit "Double Click") then
    [EvPostMessageW h WindowsAPI.WM_LBUTTONDOWN 1 lParam;
     EvPostMessageW h WindowsAPI.WM_LBUTTONUP 0 lParam; EvSleep 50;
     EvPostMessageW h WindowsAPI.WM_LBUTTONDOWN 1 lParam;
     EvPostMessageW h WindowsAPI.WM_LBUTTONUP 0 lParam]
  else [].

(** [reaches int env w0 w]: the loop entered in the world [w0] is at the
    top of a turn in the world [w], every turn before having run to its
    end. *)
Inductive reaches (int : str -> result Z) (env : Env) : World -> World -> Prop :=
| reaches_here w : reaches int env w w
| reaches_turn w w1 w2 :
    AutoClickerApp.iteration int env w = (Ok None, w1) ->
    reaches int env w1 w2 ->
    reaches int env w w2.

(** The window directory the specification describes, on one state of
    the operating system: the title of a window, whether it is visible,
    whether its title is non-empty once trimmed, and the descriptors of
    the top-level windows that are both, in enumeration order. *)
Definition window_title (s : OS) (h : Z) : str :=
  let length := GetWindowTextLengthW s h in
  if length <=? 0 then []
  else rstrip_nul (WindowsAPI.fill_buffer (Z.to_nat (length + 1)) (window_text s h)).

Definition visible (s : OS) (h : Z) : bool := bool_of_int (IsWindowVisible s h).

Definition nonblank (t : str) : bool :=
  match strip t with [] => false | _ :: _ => true end.

Definition listed (s : OS) (h : Z) : bool :=
  visible s h && nonblank (window_title s h).

Definition descriptor (s : OS) (h : Z) : WindowInfo :=
  {| hwnd := h; title := window_title s h |}.

Definition qualifying_windows (s : OS) : list WindowInfo :=
  map (descriptor s) (filter (listed s) (top_level_windows s)).

(** [a <= b] on strings, as sorting sees it: not [b < a]. *)
Definition str_le (a b : str) : Prop := str_ltb b a = false.

(* ------------------------------------------------------------------ *)
(** ** Scenarios *)

Module Scenario.

(** A desktop of five top-level windows.  Only 7 is still a window for
    [IsWindow]; 5 is hidden; 6 has no text and 8 only blanks.  The client
    area of every window starts at (10, 20) on the screen, the cursor is
    at (100, 200), and every post is reported as failed. *)
Definition desktop : OS :=
  {| IsWindow := fun h => if h =? 7 then 1 else 0;
     IsWindowVisible := fun h => if h =? 5 then 0 else 1;
     GetWindowTextLengthW := fun h => if h =? 6 then 0 else 3;
     window_text := fun h =>
       if h =? 7 then lit "abc" else if h =? 8 then lit "  " else lit "Abd";
     top_level_windows := [9; 8; 7; 6; 5];
     ScreenToClient := fun _ p => (fst p - 10, snd p - 20);
     PostMessageW := fun _ _ _ _ => 0;
     GetCursorPos := (100, 200) |}.

Definition app : App :=
  {| is_running := true;
     click_position := Some {| x := 100; y := 200 |};
     selected_window := Some {| hwnd := 7; title := lit "abc" |};
     position_selection_active := false;
     click_type_var := lit "Left Click";
     delay_var := lit "100" |}.

(** The same, the selected window being one that has closed. *)
Definition closed : App :=
  {| is_running := false;
     click_position := Some {| x := 100; y := 200 |};
     selected_window := Some {| hwnd := 8; title := lit "gone" |};
     position_selection_active := false;
     click_type_var := lit "Left Click";
     delay_var := lit "100" |}.

(** Nothing changes while the code runs. *)
Definition still : Env := {| os := fun _ => desktop; self := fun _ => app |}.

Definition start : World := {| clock := 0; log := [] |}.

(** The window closes at tick [n]. *)
Definition gone : OS :=
  {| IsWindow := fun _ => 0;
     IsWindowVisible := IsWindowVisible desktop;
     GetWindowTextLengthW := GetWindowTextLengthW desktop;
     window_text := window_text desktop;
     top_level_windows := top_level_windows desktop;
     ScreenToClient := ScreenToClient desktop;
     PostMessageW := PostMessageW desktop;
     GetCursorPos := GetCursorPos desktop |}.

Definition closes_at (n : nat) : Env :=
  {| os := fun t => if Nat.ltb t n then desktop else gone;
     self := fun _ => app |}.

(** The user presses Stop at tick [n]. *)
Definition stop_at (n : nat) : Env :=
  {| os := fun _ => desktop;
     self := fun t => AutoClickerApp.set_is_running (Nat.ltb t n) app |}.

(** [int] on the strings of decimal digits, which are the non-empty
    values the delay spinbox lets through. *)
Fixpoint digits (acc : Z) (s : str) : option Z :=
  match s with
  | [] => Some acc
  | c :: s' =>
      if ((48 <=? c) && (c <=? 57))%N
      then digits (10 * acc + (Z.of_N c - 48)) s'
      else None
  end.

Definition int (s : str) : result Z :=
  match s with
  | [] => Raise (ValueError (lit "invalid literal for int() with base 10: ''"))
  | _ :: _ =>
      match digits 0 s with
      | Some n => Ok n
      | None => Raise (ValueError (lit "invalid literal for int() with base 10"))
      end
  end.

(** [str.lower] on the strings of ASCII characters. *)
Definition lower (s : str) : str :=
  map (fun c => if ((65 <=? c) && (c <=? 90))%N then (c + 32)%N else c) s.

(** The world after one whole turn of the loop from [start]: one left
    click on window 7 at the client point (90, 180), then the delay. *)
Definition after_one_turn : World :=
  {| clock := 14;
     log := [EvIsWindow 7; EvIsWindow 7; EvScreenToClient 7 100 200;
             EvPostMessageW 7 0x0201 1 11796570; EvSleep 10;
             EvPostMessageW 7 0x0202 0 11796570; EvSleep 100] |}.

(** A desktop on which three windows bear the same title up to case. *)
Definition twin_desktop : OS :=
  {| IsWindow := fun _ => 1;
     IsWindowVisible := fun _ => 1;
     GetWindowTextLengthW := fun _ => 3;
     window_text := fun h =>
       if h =? 9 then lit "Abd" else if h =? 4 then lit "abd"
       else if h =? 3 then lit "ABD" else lit "abc";
     top_level_windows := [9; 4; 7; 3];
     ScreenToClient := fun _ p => p;
     PostMessageW := fun _ _ _ _ => 1;
     GetCursorPos := (0, 0) |}.

Definition twins : Env := {| os := fun _ => twin_desktop; self := fun _ => app |}.




(** Ready to start: a live window and a position, not running. *)
Definition idle : App :=
  {| is_running := false;
     click_position := Some {| x := 100; y := 200 |};
     selected_window := Some {| hwnd := 7; title := lit "abc" |};
     position_selection_active := false;
     click_type_var := lit "Left Click";
     delay_var := lit "100" |}.

End Scenario.

(* ------------------------------------------------------------------ *)
(** ** Vocabulary of the further properties *)

(** The client point the conversion gives on one state of the system. *)
Definition client_point_of (s : OS) (h px py : Z) : Z * Z :=
  let '(cx, cy) := ScreenToClient s h (c_long px, c_long py) in
  (c_long cx, c_long cy).

(** A call that only asks the system about its windows. *)
Definition is_query (ev : event) : bool :=
  match ev with
  | EvEnumWindows | EvIsWindowVisible _ | EvGetWindowTextLengthW _
  | EvGetWindowTextW _ _ => true
  | _ => false
  end.

(** A call a click on the window [h] may make. *)
Definition of_click_on (h : Z) (ev : event) : bool :=
  match ev with
  | EvIsWindow h' | EvScreenToClient h' _ _ | EvPostMessageW h' _ _ _ => h' =? h
  | EvSleep _ => true
  | _ => false
  end.


(** The same environment, [is_running] being what [flag] says. *)
Definition with_is_running (flag : nat -> bool) (env : Env) : Env :=
  {| os := os env;
     self := fun t => AutoClickerApp.set_is_running (flag t) (self env t) |}.

(** Nothing changes while the thread runs but the flag: the system is
    [s] and the application is [a], [is_running] being [flag]. *)
Definition steady (env : Env) (s : OS) (a : App) (flag : nat -> bool) : Prop :=
  (forall t, os env t = s) /\
  (forall t, self env t = AutoClickerApp.set_is_running (flag t) a).

(** What one whole turn of the loop logs. *)
Definition turn_events (h h' px py : Z) (click : list event) (delay_ms : Z)
  : list event :=
  EvIsWindow h :: EvIsWindow h' ::
  EvScreenToClient h' (c_long px) (c_long py) :: click ++ [EvSleep delay_ms].



(* ------------------------------------------------------------------ *)
(** ** Strings *)

Lemma str_eqb_spec (a b : str) : reflect (a = b) (str_eqb a b).
Proof.
  revert b; induction a as [|c a IH]; intros [|d b]; simpl;
    try (constructor; congruence).
  destruct (N.eqb_spec c d) as [->|Hne]; simpl.
  - destruct (IH b) as [->|Hne]; constructor; congruence.
  - constructor; congruence.
Qed.

Lemma str_eqb_neq (a b : str) : a <> b -> str_eqb a b = false.
Proof. intros H. destruct (str_eqb_spec a b); congruence. Qed.

(* ------------------------------------------------------------------ *)
(** ** Logs *)

Lemma events_since_app (w : World) (c : nat) (evs : list event) :
  events_since w {| clock := c; log := log w ++ evs |} = evs.
Proof.
  unfold events_since; simpl.
  rewrite skipn_app, skipn_all, Nat.sub_diag. reflexivity.
Qed.

Lemma events_since_same (w : World) (c : nat) :
  events_since w {| clock := c; log := log w |} = [].
Proof. unfold events_since; simpl. apply skipn_all. Qed.

Lemma sleep_total_app (l1 l2 : list event) :
  sleep_total (l1 ++ l2) = sleep_total l1 + sleep_total l2.
Proof.
  induction l1 as [|ev l1 IH]; simpl; [reflexivity|].
  destruct ev; rewrite ?IH; lia.
Qed.

(* ------------------------------------------------------------------ *)
(** ** The position parameter *)

Lemma LOWORD_make_lParam (cx cy : Z) :
  LOWORD (WindowsAPI.make_lParam cx cy) = cx mod 2 ^ 16.
Proof.
  unfold LOWORD, WindowsAPI.make_lParam.
  change 0xFFFF with (Z.ones 16).
  rewrite Z.land_lor_distr_l, <- Z.land_assoc, Z.land_diag.
  rewrite !Z.land_ones by lia.
  rewrite Z.shiftl_mul_pow2 by lia.
  rewrite Z_mod_mult. apply Z.lor_0_l.
Qed.

Lemma shiftr_make_lParam (cx cy : Z) :
  Z.shiftr (WindowsAPI.make_lParam cx cy) 16 = cy.
Proof.
  unfold WindowsAPI.make_lParam.
  change 0xFFFF with (Z.ones 16).
  rewrite Z.shiftr_lor, Z.shiftr_shiftl_l by lia.
  rewrite Z.land_ones by lia.
  rewrite (Z.shiftr_div_pow2 (cx mod 2 ^ 16)) by lia.
  rewrite Z.div_small by (apply Z.mod_pos_bound; lia).
  simpl. apply Z.lor_0_r.
Qed.

Lemma HIWORD_make_lParam (cx cy : Z) :
  HIWORD (WindowsAPI.make_lParam cx cy) = cy mod 2 ^ 16.
Proof.
  unfold HIWORD. rewrite shiftr_make_lParam.
  change 0xFFFF with (Z.ones 16). apply Z.land_ones. lia.
Qed.

Lemma signed16_mod (n : Z) :
  - 2 ^ 15 <= n < 2 ^ 15 -> signed16 (n mod 2 ^ 16) = n.
Proof.
  intros Hn. unfold signed16.
  destruct (Z.ltb_spec (n mod 2 ^ 16) (2 ^ 15)) as [Hlt|Hge].
  - destruct (Z.ltb_spec n 0).
    + rewrite <- (Z.mod_add n 1 (2 ^ 16)) in Hlt by lia.
      rewrite Z.mod_small in Hlt by lia. lia.
    + apply Z.mod_small. lia.
  - destruct (Z.ltb_spec n 0).
    + rewrite <- (Z.mod_add n 1 (2 ^ 16)) by lia.
      rewrite Z.mod_small by lia. lia.
    + rewrite Z.mod_small in Hge by lia. lia.
Qed.

(** Within the range of a 16-bit coordinate the receiver reads back the
    client point the message was built from. *)
Lemma make_lParam_roundtrip (cx cy : Z) :
  - 2 ^ 15 <= cx < 2 ^ 15 -> - 2 ^ 15 <= cy < 2 ^ 15 ->
  signed16 (LOWORD (WindowsAPI.make_lParam cx cy)) = cx /\
  signed16 (HIWORD (WindowsAPI.make_lParam cx cy)) = cy.
Proof.
  intros Hx Hy. rewrite LOWORD_make_lParam, HIWORD_make_lParam.
  split; apply signed16_mod; assumption.
Qed.

(* ------------------------------------------------------------------ *)
(** ** send_mouse_click *)

Lemma send_mouse_click_invalid_run env w h px py k :
  valid_at env (clock w) h = false ->
  WindowsAPI.send_mouse_click h px py k env w =
  (Raise (ValueError (lit "Invalid window handle")),
   {| clock := S (clock w); log := log w ++ [EvIsWindow h] |}).
Proof.
  unfold valid_at. intros Hv.
  unfold WindowsAPI.send_mouse_click, WindowsAPI.is_window_valid.
  unfold bind, call, ret, raise. simpl. rewrite Hv. reflexivity.
Qed.

(** On a window, the click converts the point, posts the sequence of its
    kind, and returns. *)
Lemma send_mouse_click_valid_run env w h px py k :
  valid_at env (clock w) h = true ->
  WindowsAPI.send_mouse_click h px py k env w =
  let '(cx, cy) := client_point env (S (clock w)) h px py in
  let evs := click_sequence k h (WindowsAPI.make_lParam cx cy) in
  (Ok tt,
   {| clock := (List.length evs + (2 + clock w))%nat;
      log := log w ++ EvIsWindow h :: EvScreenToClient h (c_long px) (c_long py) :: evs |}).
Proof.
  unfold valid_at. intros Hv.
  unfold WindowsAPI.send_mouse_click, WindowsAPI.is_window_valid,
    WindowsAPI.screen_to_client, WindowsAPI.post, sleep, emit, click_sequence.
  unfold bind, call, ret, raise, client_point. simpl. rewrite Hv. simpl.
  destruct (ScreenToClient _ _ _) as [cx cy]. simpl.
  destruct (str_eqb k (lit "Left Click"));
    [|destruct (str_eqb k (lit "Right Click"));
      [|destruct (str_eqb k (lit "Double Click"))]];
    simpl; rewrite <- !app_assoc; reflexivity.
Qed.

Lemma make_lParam_bits (cx cy i : Z) :
  0 <= i < 16 ->
  Z.testbit (WindowsAPI.make_lParam cx cy) i = Z.testbit cx i /\
  Z.testbit (WindowsAPI.make_lParam cx cy) (16 + i) = Z.testbit cy i.
Proof.
  intros Hi. unfold WindowsAPI.make_lParam.
  change 0xFFFF with (Z.ones 16).
  rewrite !Z.lor_spec, !Z.land_spec.
  rewrite Z.shiftl_spec_low by lia.
  rewrite Z.shiftl_spec by lia.
  rewrite Z.ones_spec_low by lia.
  rewrite Z.ones_spec_high by lia.
  replace (16 + i - 16) with i by lia.
  rewrite andb_true_r, andb_false_r, orb_false_r. simpl. auto.
Qed.

Lemma In_click_sequence k h lParam h' Msg wParam lParam' :
  In (EvPostMessageW h' Msg wParam lParam') (click_sequence k h lParam) ->
  h' = h /\ lParam' = lParam.
Proof.
  unfold click_sequence.
  destruct (str_eqb k (lit "Left Click"));
    [|destruct (str_eqb k (lit "Right Click"));
      [|destruct (str_eqb k (lit "Double Click"))]];
    simpl; intros H;
    repeat (destruct H as [H|H]; [inversion H; subst; auto|]);
    try contradiction; try discriminate.
Qed.

(** C1: on a valid window handle, a click of kind Double Click posts
    exactly four messages, left-button-down, left-button-up,
    left-button-down, left-button-up, with nothing between the first two
    and a sleep of 50 ms between the second and the third; a Left Click
    and a Right Click post exactly two, the down and the up of their
    button, with a sleep of 10 ms in between.  The log shows the whole
    call: the validity check, the conversion, then the sequence. *)
Theorem click_emits_sequence_of_kind env w h px py :
  valid_at env (clock w) h = true ->
  let '(cx, cy) := client_point env (S (clock w)) h px py in
  let lParam := WindowsAPI.make_lParam cx cy in
  let checked := [EvIsWindow h; EvScreenToClient h (c_long px) (c_long py)] in
  WindowsAPI.send_mouse_click h px py (lit "Double Click") env w =
    (Ok tt,
     {| clock := (7 + clock w)%nat;
        log := log w ++ checked ++
               [EvPostMessageW h WindowsAPI.WM_LBUTTONDOWN 1 lParam;
                EvPostMessageW h WindowsAPI.WM_LBUTTONUP 0 lParam;
                EvSleep 50;
                EvPostMessageW h WindowsAPI.WM_LBUTTONDOWN 1 lParam;
                EvPostMessageW h WindowsAPI.WM_LBUTTONUP 0 lParam] |}) /\
  WindowsAPI.send_mouse_click h px py (lit "Left Click") env w =
    (Ok tt,
     {| clock := (5 + clock w)%nat;
        log := log w ++ checked ++
               [EvPostMessageW h WindowsAPI.WM_LBUTTONDOWN 1 lParam;
                EvSleep 10;
                EvPostMessageW h WindowsAPI.WM_LBUTTONUP 0 lParam] |}) /\
  WindowsAPI.send_mouse_click h px py (lit "Right Click") env w =
    (Ok tt,
     {| clock := (5 + clock w)%nat;
        log := log w ++ checked ++
               [EvPostMessageW h WindowsAPI.WM_RBUTTONDOWN 2 lParam;
                EvSleep 10;
                EvPostMessageW h WindowsAPI.WM_RBUTTONUP 0 lParam] |}).
Proof.
  intros Hv.
  pose proof (send_mouse_click_valid_run env w h px py (lit "Double Click") Hv) as Hd.
  pose proof (send_mouse_click_valid_run env w h px py (lit "Left Click") Hv) as Hl.
  pose proof (send_mouse_click_valid_run env w h px py (lit "Right Click") Hv) as Hr.
  destruct (client_point env (S (clock w)) h px py) as [cx cy].
  repeat split; assumption.
Qed.

Lemma click_emits_sequence_of_kind_witness :
  valid_at Scenario.still 0 7 = true /\
  WindowsAPI.send_mouse_click 7 100 200 (lit "Double Click")
    Scenario.still Scenario.start =
  (Ok tt,
   {| clock := 7;
      log := [EvIsWindow 7; EvScreenToClient 7 100 200;
              EvPostMessageW 7 0x0201 1 11796570;
              EvPostMessageW 7 0x0202 0 11796570;
              EvSleep 50;
              EvPostMessageW 7 0x0201 1 11796570;
              EvPostMessageW 7 0x0202 0 11796570] |}).
Proof.
  split; [reflexivity|].
  exact (proj1 (click_emits_sequence_of_kind
                  Scenario.still Scenario.start 7 100 200 eq_refl)).
Defined.

(** C4: when the handle is not a window at the time of the call, the
    click raises ValueError("Invalid window handle") straight after the
    validity check: the only call made is that check, so no
    screen-to-client conversion is performed and no message is posted. *)
Theorem click_on_invalid_handle_short_circuits env w h px py k :
  valid_at env (clock w) h = false ->
  exists w',
    WindowsAPI.send_mouse_click h px py k env w =
      (Raise (ValueError (lit "Invalid window handle")), w') /\
    events_since w w' = [EvIsWindow h] /\
    filter is_conversion (events_since w w') = [] /\
    filter is_post (events_since w w') = [].
Proof.
  intros Hv. eexists. split.
  - apply send_mouse_click_invalid_run. exact Hv.
  - rewrite events_since_app. auto.
Qed.

Lemma click_on_invalid_handle_short_circuits_witness :
  valid_at Scenario.still 0 8 = false /\
  exists w',
    WindowsAPI.send_mouse_click 8 100 200 (lit "Left Click")
      Scenario.still Scenario.start =
      (Raise (ValueError (lit "Invalid window handle")), w') /\
    events_since Scenario.start w' = [EvIsWindow 8] /\
    filter is_conversion (events_since Scenario.start w') = [] /\
    filter is_post (events_since Scenario.start w') = [].
Proof.
  split; [reflexivity|].
  exact (click_on_invalid_handle_short_circuits
           Scenario.still Scenario.start 8 100 200 (lit "Left Click") eq_refl).
Defined.

(** C10: on a valid window handle, a click whose kind is none of
    "Left Click", "Right Click", "Double Click" checks the handle,
    converts the point, posts nothing and returns normally. *)
Theorem unknown_click_type_is_noop env w h px py k :
  valid_at env (clock w) h = true ->
  k <> lit "Left Click" -> k <> lit "Right Click" -> k <> lit "Double Click" ->
  WindowsAPI.send_mouse_click h px py k env w =
    (Ok tt,
     {| clock := (2 + clock w)%nat;
        log := log w ++ [EvIsWindow h; EvScreenToClient h (c_long px) (c_long py)] |}).
Proof.
  intros Hv Hl Hr Hd.
  rewrite (send_mouse_click_valid_run env w h px py k Hv).
  destruct (client_point env (S (clock w)) h px py) as [cx cy].
  unfold click_sequence.
  rewrite (str_eqb_neq _ _ Hl), (str_eqb_neq _ _ Hr), (str_eqb_neq _ _ Hd).
  reflexivity.
Qed.

Lemma unknown_click_type_is_noop_witness :
  valid_at Scenario.still 0 7 = true /\
  lit "Middle Click" <> lit "Left Click" /\
  WindowsAPI.send_mouse_click 7 100 200 (lit "Middle Click")
    Scenario.still Scenario.start =
    (Ok tt, {| clock := 2; log := [EvIsWindow 7; EvScreenToClient 7 100 200] |}).
Proof.
  split; [reflexivity|].
  split; [intros H; vm_compute in H; discriminate H|].
  apply (unknown_click_type_is_noop Scenario.still Scenario.start 7 100 200
           (lit "Middle Click")).
  - reflexivity.
  - intros H; vm_compute in H; discriminate H.
  - intros H; vm_compute in H; discriminate H.
  - intros H; vm_compute in H; discriminate H.
Defined.

(** C8: every message a click posts carries one position parameter, built
    from the client point the conversion returned: bit i of the
    parameter is bit i of the client x, and bit 16+i is bit i of the
    client y, for i from 0 to 15; so the low word is x and the high word
    is y, each modulo 2^16 (and the parameter shifted right by 16 is the
    whole of y). *)
Theorem click_position_parameter_packs_client_point
    env w h px py k h' Msg wParam lParam :
  In (EvPostMessageW h' Msg wParam lParam)
     (events_since w (snd (WindowsAPI.send_mouse_click h px py k env w))) ->
  let '(cx, cy) := client_point env (S (clock w)) h px py in
  (forall i, 0 <= i < 16 ->
     Z.testbit lParam i = Z.testbit cx i /\
     Z.testbit lParam (16 + i) = Z.testbit cy i) /\
  LOWORD lParam = cx mod 2 ^ 16 /\
  HIWORD lParam = cy mod 2 ^ 16 /\
  Z.shiftr lParam 16 = cy.
Proof.
  destruct (valid_at env (clock w) h) eqn:Hv.
  - rewrite (send_mouse_click_valid_run env w h px py k Hv).
    destruct (client_point env (S (clock w)) h px py) as [cx cy].
    cbv zeta. unfold snd. rewrite events_since_app.
    intros [H|[H|H]]; try discriminate.
    apply In_click_sequence in H. destruct H as [_ ->].
    split; [intros i Hi; apply make_lParam_bits; exact Hi|].
    split; [apply LOWORD_make_lParam|].
    split; [apply HIWORD_make_lParam|apply shiftr_make_lParam].
  - rewrite (send_mouse_click_invalid_run env w h px py k Hv).
    unfold snd. rewrite events_since_app.
    intros [H|[]]. discriminate.
Qed.

Lemma click_position_parameter_packs_client_point_witness :
  In (EvPostMessageW 7 0x0201 1 11796570)
     (events_since Scenario.start
        (snd (WindowsAPI.send_mouse_click 7 100 200 (lit "Left Click")
                Scenario.still Scenario.start))) /\
  LOWORD 11796570 = 90 mod 2 ^ 16 /\ HIWORD 11796570 = 180 mod 2 ^ 16.
Proof.
  assert (Hin : In (EvPostMessageW 7 0x0201 1 11796570)
     (events_since Scenario.start
        (snd (WindowsAPI.send_mouse_click 7 100 200 (lit "Left Click")
                Scenario.still Scenario.start)))).
  { vm_compute. right. right. left. reflexivity. }
  split; [exact Hin|].
  pose proof (click_position_parameter_packs_client_point
                Scenario.still Scenario.start 7 100 200 (lit "Left Click")
                7 0x0201 1 11796570 Hin) as H.
  change (client_point Scenario.still (S (clock Scenario.start)) 7 100 200)
    with (90, 180) in H.
  split; [exact (proj1 (proj2 H))|exact (proj1 (proj2 (proj2 H)))].
Defined.

(** C3, as the code has it: the answer of the message-post primitive is
    never looked at.  On a valid handle the click returns normally
    whatever the posts answer, and it makes the same calls and leaves the
    same result under any other sequence of answers. *)
Theorem click_ignores_post_result env w h px py k answers :
  valid_at env (clock w) h = true ->
  fst (WindowsAPI.send_mouse_click h px py k (with_PostMessageW answers env) w)
    = Ok tt /\
  WindowsAPI.send_mouse_click h px py k (with_PostMessageW answers env) w =
  WindowsAPI.send_mouse_click h px py k env w.
Proof.
  intros Hv.
  assert (Hv' : valid_at (with_PostMessageW answers env) (clock w) h = true)
    by exact Hv.
  rewrite (send_mouse_click_valid_run _ w h px py k Hv').
  rewrite (send_mouse_click_valid_run env w h px py k Hv).
  change (client_point (with_PostMessageW answers env) (S (clock w)) h px py)
    with (client_point env (S (clock w)) h px py).
  destruct (client_point env (S (clock w)) h px py) as [cx cy].
  split; reflexivity.
Qed.

Lemma click_ignores_post_result_witness :
  valid_at Scenario.still 0 7 = true /\
  fst (WindowsAPI.send_mouse_click 7 100 200 (lit "Left Click")
         (with_PostMessageW (fun _ _ _ _ _ => 1) Scenario.still) Scenario.start)
    = Ok tt.
Proof.
  split; [reflexivity|].
  exact (proj1 (click_ignores_post_result Scenario.still Scenario.start
                  7 100 200 (lit "Left Click") (fun _ _ _ _ _ => 1) eq_refl)).
Defined.

(** C3, as the specification has it, fails: here the handle is valid,
    every post is answered with 0 (failure), two messages are posted, and
    the click returns normally instead of raising. *)
Lemma failed_post_is_not_raised :
  valid_at Scenario.still 0 7 = true /\
  (forall t h Msg wParam lParam,
     PostMessageW (os Scenario.still t) h Msg wParam lParam = 0) /\
  WindowsAPI.send_mouse_click 7 100 200 (lit "Left Click")
    Scenario.still Scenario.start =
  (Ok tt,
   {| clock := 5;
      log := [EvIsWindow 7; EvScreenToClient 7 100 200;
              EvPostMessageW 7 0x0201 1 11796570;
              EvSleep 10;
              EvPostMessageW 7 0x0202 0 11796570] |}).
Proof.
  split; [reflexivity|]. split; [reflexivity|]. vm_compute. reflexivity.
Qed.

(* ------------------------------------------------------------------ *)
(** ** Start, and the position hotkey *)

Ltac unfold_ui :=
  unfold AutoClickerApp._start_clicking, AutoClickerApp._stop_clicking,
    AutoClickerApp.start_position_selection,
    AutoClickerApp._handle_position_hotkey, AutoClickerApp._update_status,
    WindowsAPI.is_window_valid, WindowsAPI.get_cursor_position,
    emit, bind, call, ret, raise.

Ltac log_tail := simpl; rewrite <- ?app_assoc; simpl; rewrite ?events_since_app.

(** C7: a start with no window selected, or with no position selected,
    or with a selected handle that is not a window, returns at once with
    the application unchanged (so [is_running] stays as it was), shows
    one message box naming the reason, and starts no thread. *)
Theorem start_rejected_before_thread a env w :
  selected_window a = None \/
  click_position a = None \/
  (exists win, selected_window a = Some win /\
               valid_at env (clock w) (hwnd win) = false) ->
  exists w' report,
    AutoClickerApp._start_clicking a env w = (Ok a, w') /\
    filter is_thread_start (events_since w w') = [] /\
    filter is_messagebox (events_since w w') = [report] /\
    In report
      [EvMessagebox showwarning (lit "No Window Selected")
         (lit "Please select a target window first!");
       EvMessagebox showwarning (lit "No Position Selected")
         (lit "Please select a click position first!");
       EvMessagebox showerror (lit "Invalid Window")
         (lit "The selected window is no longer valid. Please refresh the window list.")].
Proof.
  intros H. unfold_ui.
  destruct (selected_window a) as [win|] eqn:Hw.
  - destruct (click_position a) as [p|] eqn:Hp.
    + destruct H as [H|[H|[win' [Hw' Hv]]]]; try discriminate.
      injection Hw' as <-. unfold valid_at in Hv. simpl. rewrite Hv. simpl.
      do 2 eexists. split; [reflexivity|]. log_tail.
      split; [reflexivity|]. split; [reflexivity|]. simpl; auto.
    + do 2 eexists. split; [reflexivity|]. log_tail.
      split; [reflexivity|]. split; [reflexivity|]. simpl; auto.
  - do 2 eexists. split; [reflexivity|]. log_tail.
    split; [reflexivity|]. split; [reflexivity|]. simpl; auto.
Qed.

Lemma start_rejected_before_thread_witness :
  (exists win, selected_window Scenario.closed = Some win /\
               valid_at Scenario.still 0 (hwnd win) = false) /\
  exists w' report,
    AutoClickerApp._start_clicking Scenario.closed Scenario.still Scenario.start
      = (Ok Scenario.closed, w') /\
    filter is_thread_start (events_since Scenario.start w') = [] /\
    filter is_messagebox (events_since Scenario.start w') = [report].
Proof.
  assert (H : exists win, selected_window Scenario.closed = Some win /\
                          valid_at Scenario.still 0 (hwnd win) = false).
  { eexists. split; reflexivity. }
  split; [exact H|].
  destruct (start_rejected_before_thread Scenario.closed Scenario.still
              Scenario.start (or_intror (or_intror H)))
    as (w' & report & Hrun & Hthread & Hbox & _).
  exists w', report. auto.
Defined.

(** When all three checks pass the thread is started, once. *)
Lemma start_accepted a env w win p :
  selected_window a = Some win -> click_position a = Some p ->
  valid_at env (clock w) (hwnd win) = true ->
  exists w',
    AutoClickerApp._start_clicking a env w
      = (Ok (AutoClickerApp.set_is_running true a), w') /\
    filter is_thread_start (events_since w w') = [EvThreadStart].
Proof.
  intros Hw Hp Hv. unfold_ui. rewrite Hw, Hp. unfold valid_at in Hv.
  simpl. rewrite Hv. simpl. eexists. split; [reflexivity|]. log_tail.
  reflexivity.
Qed.

(** The report the loop schedules, once the UI thread runs it, clears
    [is_running] and shows the message. *)
Lemma handle_clicking_error_idles message a env w :
  exists a' w',
    AutoClickerApp._handle_clicking_error message a env w = (Ok a', w') /\
    is_running a' = false /\
    In (EvMessagebox showerror (lit "Auto-Clicking Error") message)
       (events_since w w').
Proof.
  unfold AutoClickerApp._handle_clicking_error. unfold_ui.
  do 2 eexists. split; [reflexivity|]. split; [reflexivity|].
  log_tail. simpl; auto.
Qed.

(** C9: arming the position hotkey sets the flag and registers F8.  The
    first activation after that samples the cursor once, stores the
    sample as the click position, clears the flag and removes the
    hotkey.  From then on, until the next arming, an activation returns
    the application and the world as they are: nothing is sampled and
    nothing changes.  Arming while armed registers nothing. *)
Theorem position_hotkey_fires_once a env w env1 w1 :
  position_selection_active a = false ->
  exists armed w',
    AutoClickerApp.start_position_selection a env w = (Ok armed, w') /\
    position_selection_active armed = true /\
    In (EvAddHotkey (lit "F8")) (events_since w w') /\
    (forall env' w0,
       AutoClickerApp.start_position_selection armed env' w0 = (Ok armed, w0)) /\
    exists fired w1',
      AutoClickerApp._handle_position_hotkey armed env1 w1 = (Ok fired, w1') /\
      click_position fired =
        Some {| x := c_long (fst (GetCursorPos (os env1 (clock w1))));
                y := c_long (snd (GetCursorPos (os env1 (clock w1)))) |} /\
      position_selection_active fired = false /\
      filter is_cursor_sample (events_since w1 w1') = [EvGetCursorPos] /\
      In (EvRemoveHotkey (lit "F8")) (events_since w1 w1') /\
      forall env2 w2,
        AutoClickerApp._handle_position_hotkey fired env2 w2 = (Ok fired, w2).
Proof.
  intros Ha. unfold_ui. rewrite Ha. simpl.
  do 2 eexists. split; [reflexivity|]. split; [reflexivity|]. log_tail.
  split; [simpl; auto|]. split; [reflexivity|].
  destruct (GetCursorPos (os env1 (clock w1))) as [cx cy]. simpl.
  do 2 eexists. split; [reflexivity|]. split; [reflexivity|]. log_tail.
  split; [reflexivity|]. split; [reflexivity|].
  split; [simpl; auto|]. reflexivity.
Qed.

Lemma position_hotkey_fires_once_witness :
  position_selection_active Scenario.app = false /\
  exists armed w',
    AutoClickerApp.start_position_selection Scenario.app
      Scenario.still Scenario.start = (Ok armed, w') /\
    position_selection_active armed = true /\
    exists fired w1',
      AutoClickerApp._handle_position_hotkey armed Scenario.still w' = (Ok fired, w1') /\
      click_position fired = Some {| x := 100; y := 200 |} /\
      AutoClickerApp._handle_position_hotkey fired Scenario.still w1' = (Ok fired, w1').
Proof.
  split; [reflexivity|].
  destruct (position_hotkey_fires_once Scenario.app Scenario.still Scenario.start
              Scenario.still
              (snd (AutoClickerApp.start_position_selection Scenario.app
                      Scenario.still Scenario.start)) eq_refl)
    as (armed & w' & Harm & Hflag & _ & _ & fired & w1' & Hfire & Hpos & _ & _ & _ & Hidle).
  exists armed, w'. split; [exact Harm|]. split; [exact Hflag|].
  exists fired, w1'.
  rewrite Harm in Hfire. simpl in Hfire.
  split; [exact Hfire|]. split; [exact Hpos|]. apply Hidle.
Defined.

(* ------------------------------------------------------------------ *)
(** ** The clicking loop *)

Import AutoClickerApp.

Lemma events_since_log (w w' : World) (evs : list event) :
  log w' = log w ++ evs -> events_since w w' = evs.
Proof.
  intros H. unfold events_since. rewrite H.
  rewrite skipn_app, skipn_all, Nat.sub_diag. reflexivity.
Qed.

Lemma sleep_total_click_sequence k h lParam :
  sleep_total (click_sequence k h lParam) = click_gap k.
Proof.
  unfold click_sequence, click_gap.
  destruct (str_eqb k (lit "Left Click"));
    [|destruct (str_eqb k (lit "Right Click"));
      [|destruct (str_eqb k (lit "Double Click"))]]; reflexivity.
Qed.

Lemma reaches_fuel int env w0 w :
  reaches int env w0 w ->
  exists n, forall fuel,
    while_is_running int (n + fuel) env w0 = while_is_running int fuel env w.
Proof.
  induction 1 as [w|w w1 w2 Hturn _ [n IH]].
  - exists 0%nat. reflexivity.
  - exists (S n). intros fuel. simpl. unfold bind at 1. rewrite Hturn. apply IH.
Qed.

Lemma reaches_trans int env w0 w1 w2 :
  reaches int env w0 w1 -> reaches int env w1 w2 -> reaches int env w0 w2.
Proof.
  induction 1; intros; [assumption|]. eapply reaches_turn; eauto.
Qed.

(** A turn that ends the loop ends the run, given fuel for the turns
    before it and one more. *)
Lemma loop_ends_with int env w0 w e w' :
  reaches int env w0 w ->
  iteration int env w = (Ok (Some e), w') ->
  exists n, forall fuel, (n <= fuel)%nat ->
    _clicking_loop int fuel env w0 = (Ok e, w').
Proof.
  intros Hreach Hturn. destruct (reaches_fuel int env w0 w Hreach) as [n Hn].
  exists (S n). intros fuel Hfuel.
  replace fuel with (n + S (fuel - S n))%nat by lia.
  unfold _clicking_loop, try_except. rewrite Hn.
  simpl. unfold bind at 1. rewrite Hturn. reflexivity.
Qed.


Lemma iteration_stopped int env w :
  is_running (self env (clock w)) = false ->
  iteration int env w =
    (Ok (Some Stopped), {| clock := S (clock w); log := log w |}).
Proof.
  intros H. unfold iteration, bind, read, ret. simpl. rewrite H. reflexivity.
Qed.

Lemma iteration_target_lost int env w win :
  is_running (self env (clock w)) = true ->
  selected_window (self env (S (clock w))) = Some win ->
  valid_at env (S (S (clock w))) (hwnd win) = false ->
  iteration int env w =
    (Ok (Some TargetLost),
     {| clock := (4 + clock w)%nat;
        log := log w ++ [EvIsWindow (hwnd win);
                         EvAfter 0 (handle_clicking_error
                                      (lit "Target window closed"))] |}).
Proof.
  intros Hr Hw Hv. unfold valid_at in Hv.
  unfold iteration, read_attr, WindowsAPI.is_window_valid, emit, bind, read,
    call, ret, raise.
  simpl. rewrite Hr. simpl. rewrite Hw. simpl. rewrite Hv. simpl.
  rewrite <- app_assoc. reflexivity.
Qed.

(** What a turn that ran to its end has done: two validity checks (the
    loop's and the click's), the conversion, the click sequence of the
    kind read at that turn, and the sleep of the delay read after it. *)
Lemma iteration_continues_inv int env w w1 :
  iteration int env w = (Ok None, w1) ->
  exists h h' px py d t,
    is_running (self env (clock w)) = true /\
    int (delay_var (self env t)) = Ok d /\ 0 <= d /\
    let k := click_type_var (self env (6 + clock w)) in
    let '(cx, cy) := client_point env (8 + clock w) h' px py in
    log w1 = log w ++ EvIsWindow h :: EvIsWindow h' ::
                      EvScreenToClient h' (c_long px) (c_long py) ::
                      click_sequence k h' (WindowsAPI.make_lParam cx cy)
                      ++ [EvSleep d].
Proof.
  unfold iteration, read_attr, WindowsAPI.is_window_valid, emit, bind, read,
    call, ret, raise, lift, sleep.
  simpl.
  destruct (is_running (self env (clock w))) eqn:Hr;
    [|simpl; intros Hx; discriminate Hx].
  simpl.
  destruct (selected_window (self env (S (clock w)))) as [win|];
    [|simpl; intros Hx; discriminate Hx].
  simpl.
  destruct (bool_of_int (IsWindow (os env (S (S (clock w)))) (hwnd win)));
    [|simpl; intros Hx; discriminate Hx].
  simpl.
  destruct (selected_window (self env (S (S (S (clock w)))))) as [win'|];
    [|simpl; intros Hx; discriminate Hx].
  simpl.
  destruct (click_position (self env (S (S (S (S (clock w))))))) as [p|];
    [|simpl; intros Hx; discriminate Hx].
  simpl.
  destruct (click_position (self env (S (S (S (S (S (clock w)))))))) as [p'|];
    [|simpl; intros Hx; discriminate Hx].
  simpl.
  match goal with
  | |- context [WindowsAPI.send_mouse_click ?h ?a ?b ?k ?e ?ww] =>
      destruct (valid_at e (clock ww) h) eqn:Hv';
      [rewrite (send_mouse_click_valid_run e ww h a b k Hv')
      |rewrite (send_mouse_click_invalid_run e ww h a b k Hv');
       simpl; intros Hx; discriminate Hx]
  end.
  simpl.
  destruct (client_point env _ _ _ _) as [cx cy] eqn:Hcp.
  match goal with
  | |- context [int ?s] =>
      destruct (int s) as [d|e] eqn:Hd; [|simpl; intros Hx; discriminate Hx]
  end.
  destruct (d <? 0) eqn:Hneg; [simpl; intros Hx; discriminate Hx|].
  intros Heq. injection Heq as <-. simpl.
  exists (hwnd win), (hwnd win'), (x p), (y p'), d. eexists.
  split; [reflexivity|]. split; [exact Hd|]. split; [lia|].
  rewrite Hcp. rewrite <- !app_assoc. reflexivity.
Qed.

(** C2: at the top of any turn of any run, if the loop is still asked to
    run and the liveness check on the selected window answers false,
    the run ends there: the outcome is the target-lost one, and the log
    of the whole run is the log up to that turn followed by the check
    and the scheduling of the "Target window closed" report, so nothing
    is delivered afterwards.  Fuel for the turns before and one more
    is enough. *)
Theorem target_lost_stops_loop int env w0 w win :
  reaches int env w0 w ->
  is_running (self env (clock w)) = true ->
  selected_window (self env (S (clock w))) = Some win ->
  valid_at env (S (S (clock w))) (hwnd win) = false ->
  exists n, forall fuel, (n <= fuel)%nat ->
    _clicking_loop int fuel env w0 =
      (Ok TargetLost,
       {| clock := (4 + clock w)%nat;
          log := log w ++ [EvIsWindow (hwnd win);
                           EvAfter 0 (handle_clicking_error
                                        (lit "Target window closed"))] |}).
Proof.
  intros Hreach Hr Hw Hv.
  apply (loop_ends_with int env w0 w); [exact Hreach|].
  apply iteration_target_lost; assumption.
Qed.

Lemma target_lost_stops_loop_witness :
  reaches Scenario.int (Scenario.closes_at 14)
    Scenario.start Scenario.after_one_turn /\
  valid_at (Scenario.closes_at 14) 16 7 = false /\
  exists n, forall fuel, (n <= fuel)%nat ->
    _clicking_loop Scenario.int fuel (Scenario.closes_at 14) Scenario.start =
      (Ok TargetLost,
       {| clock := 18;
          log := [EvIsWindow 7; EvIsWindow 7; EvScreenToClient 7 100 200;
                  EvPostMessageW 7 0x0201 1 11796570; EvSleep 10;
                  EvPostMessageW 7 0x0202 0 11796570; EvSleep 100;
                  EvIsWindow 7;
                  EvAfter 0 (handle_clicking_error
                               (lit "Target window closed"))] |}).
Proof.
  assert (Hreach : reaches Scenario.int (Scenario.closes_at 14)
                     Scenario.start Scenario.after_one_turn).
  { eapply reaches_turn; [vm_compute; reflexivity|apply reaches_here]. }
  split; [exact Hreach|]. split; [reflexivity|].
  exact (target_lost_stops_loop Scenario.int (Scenario.closes_at 14)
           Scenario.start Scenario.after_one_turn
           {| hwnd := 7; title := lit "abc" |}
           Hreach eq_refl eq_refl eq_refl).
Defined.

(** C5, as the code has it.  The loop looks at [is_running] only at the
    top of a turn.  When it finds the flag false there, the run ends at
    once as a normal stop: nothing is logged after that point, so no
    click is delivered and no error is reported.  The turn before it, in
    which the stop was requested, ran to its end whatever the flag did
    meanwhile: both validity checks, the conversion, the whole click
    sequence of its kind and the sleep of the delay.  So the time slept
    between the request and its observation is at most the gap inside
    one click (10 ms, or 50 ms for a double click) plus one delay. *)
Theorem stop_observed_at_top_of_next_turn int env w0 w1 :
  reaches int env w0 w1 ->
  is_running (self env (clock w1)) = false ->
  (exists n, forall fuel, (n <= fuel)%nat ->
     _clicking_loop int fuel env w0 =
       (Ok Stopped, {| clock := S (clock w1); log := log w1 |})) /\
  (forall w,
     iteration int env w = (Ok None, w1) ->
     exists h h' px py d t,
       int (delay_var (self env t)) = Ok d /\ 0 <= d /\
       let k := click_type_var (self env (6 + clock w)) in
       let '(cx, cy) := client_point env (8 + clock w) h' px py in
       events_since w w1 =
         EvIsWindow h :: EvIsWindow h' ::
         EvScreenToClient h' (c_long px) (c_long py) ::
         click_sequence k h' (WindowsAPI.make_lParam cx cy) ++ [EvSleep d] /\
       sleep_total (events_since w w1) = click_gap k + d).
Proof.
  intros Hreach Hstop. split.
  - apply (loop_ends_with int env w0 w1); [exact Hreach|].
    apply iteration_stopped. exact Hstop.
  - intros w Hturn.
    destruct (iteration_continues_inv int env w w1 Hturn)
      as (h & h' & px & py & d & t & _ & Hd & Hpos & Hlog).
    exists h, h', px, py, d, t. split; [exact Hd|]. split; [exact Hpos|].
    cbv zeta in Hlog |- *.
    destruct (client_point env (8 + clock w) h' px py) as [cx cy].
    rewrite (events_since_log _ _ _ Hlog). split; [reflexivity|].
    simpl. rewrite sleep_total_app, sleep_total_click_sequence. simpl. lia.
Qed.

Lemma stop_observed_at_top_of_next_turn_witness :
  reaches Scenario.int (Scenario.stop_at 1)
    Scenario.start Scenario.after_one_turn /\
  is_running (self (Scenario.stop_at 1) 14) = false /\
  exists n, forall fuel, (n <= fuel)%nat ->
    _clicking_loop Scenario.int fuel (Scenario.stop_at 1) Scenario.start =
      (Ok Stopped, {| clock := 15; log := log Scenario.after_one_turn |}).
Proof.
  assert (Hreach : reaches Scenario.int (Scenario.stop_at 1)
                     Scenario.start Scenario.after_one_turn).
  { eapply reaches_turn; [vm_compute; reflexivity|apply reaches_here]. }
  split; [exact Hreach|]. split; [reflexivity|].
  exact (proj1 (stop_observed_at_top_of_next_turn Scenario.int
                  (Scenario.stop_at 1) Scenario.start Scenario.after_one_turn
                  Hreach eq_refl)).
Defined.

(** C5, as the specification has it, fails on the bound.  The delay is
    100 ms throughout and the kind is Left Click.  The flag is true when
    the loop tests it at tick 0 and false from tick 1 on: Stop was
    pressed just after the test.  The run still makes the whole click
    and sleeps the whole delay before it sees the flag at tick 14, so
    110 ms are slept after the request, more than one delay. *)
Lemma stop_latency_exceeds_one_delay :
  is_running (self (Scenario.stop_at 1) 0) = true /\
  (forall t, (1 <= t)%nat -> is_running (self (Scenario.stop_at 1) t) = false) /\
  (forall t, Scenario.int (delay_var (self (Scenario.stop_at 1) t)) = Ok 100) /\
  (forall fuel,
     _clicking_loop Scenario.int (2 + fuel) (Scenario.stop_at 1) Scenario.start =
       (Ok Stopped,
        {| clock := 15;
           log := [EvIsWindow 7; EvIsWindow 7; EvScreenToClient 7 100 200;
                   EvPostMessageW 7 0x0201 1 11796570; EvSleep 10;
                   EvPostMessageW 7 0x0202 0 11796570; EvSleep 100] |})) /\
  sleep_total [EvIsWindow 7; EvIsWindow 7; EvScreenToClient 7 100 200;
               EvPostMessageW 7 0x0201 1 11796570; EvSleep 10;
               EvPostMessageW 7 0x0202 0 11796570; EvSleep 100] = 110 /\
  100 < 110.
Proof.
  split; [reflexivity|].
  split.
  { intros t Ht. simpl. destruct (Nat.ltb_spec t 1); [lia|reflexivity]. }
  split; [reflexivity|].
  split.
  { intros fuel. unfold _clicking_loop, try_except.
    change (while_is_running Scenario.int (2 + fuel)) with
      (bind (iteration Scenario.int)
         (fun r => match r with
                   | Some e => ret e
                   | None =>
                       bind (iteration Scenario.int)
                         (fun r' => match r' with
                                    | Some e => ret e
                                    | None => while_is_running Scenario.int fuel
                                    end)
                   end)).
    unfold bind at 1.
    replace (iteration Scenario.int (Scenario.stop_at 1) Scenario.start)
      with (@Ok (option loop_end) None, Scenario.after_one_turn)
      by (vm_compute; reflexivity).
    unfold bind at 1.
    replace (iteration Scenario.int (Scenario.stop_at 1) Scenario.after_one_turn)
      with (Ok (Some Stopped), {| clock := 15; log := log Scenario.after_one_turn |})
      by (vm_compute; reflexivity).
    reflexivity. }
  split; [reflexivity|lia].
Qed.

(* ------------------------------------------------------------------ *)
(** ** The order on strings, and sorting by a key *)

Lemma str_ltb_irrefl a : str_ltb a a = false.
Proof.
  induction a as [|c a IH]; simpl; [reflexivity|].
  rewrite N.ltb_irrefl. exact IH.
Qed.

Lemma str_le_trans a b c : str_le a b -> str_le b c -> str_le a c.
Proof.
  unfold str_le. revert b c.
  induction a as [|x a IH]; intros [|y b] [|z c]; simpl; try congruence.
  repeat match goal with
         | |- context [N.ltb ?u ?v] => destruct (N.ltb_spec u v)
         end; try congruence; try lia.
  apply IH.
Qed.

Lemma str_ltb_le a b : str_ltb a b = true -> str_le a b.
Proof.
  unfold str_le. revert b.
  induction a as [|x a IH]; intros [|y b]; simpl; try congruence.
  destruct (N.ltb_spec x y), (N.ltb_spec y x); try lia; try congruence.
  apply IH.
Qed.

Section SortedBy.
Context {A : Type} (key : A -> str).

Lemma insert_by_perm a l : Permutation (insert_by key a l) (a :: l).
Proof.
  induction l as [|b l IH]; simpl; [reflexivity|].
  destruct (str_ltb (key b) (key a)); [|reflexivity].
  rewrite IH. apply perm_swap.
Qed.

Lemma sorted_by_perm l : Permutation (sorted_by key l) l.
Proof.
  induction l as [|a l IH]; simpl; [reflexivity|].
  rewrite insert_by_perm. constructor. exact IH.
Qed.

Lemma insert_by_sorted a l :
  StronglySorted (fun a b => str_le (key a) (key b)) l ->
  StronglySorted (fun a b => str_le (key a) (key b)) (insert_by key a l).
Proof.
  induction 1 as [|b l Hs IH Hb]; simpl.
  - constructor; constructor.
  - destruct (str_ltb (key b) (key a)) eqn:Hlt.
    + constructor; [exact IH|].
      rewrite Forall_forall in *. intros c Hc.
      apply (Permutation_in _ (insert_by_perm a l)) in Hc.
      destruct Hc as [<-|Hc]; [apply str_ltb_le; exact Hlt|auto].
    + constructor; [constructor; assumption|].
      constructor; [exact Hlt|].
      rewrite Forall_forall in *. intros c Hc.
      eapply str_le_trans; [exact Hlt|apply Hb; exact Hc].
Qed.

Lemma sorted_by_sorted l :
  StronglySorted (fun a b => str_le (key a) (key b)) (sorted_by key l).
Proof.
  induction l as [|a l IH]; simpl; [constructor|].
  apply insert_by_sorted. exact IH.
Qed.

(** The sort is stable: the elements of any one key come out in the
    order they went in. *)
Lemma insert_by_stable k a l :
  filter (fun b => str_eqb (key b) k) (insert_by key a l) =
  filter (fun b => str_eqb (key b) k) (a :: l).
Proof.
  induction l as [|b l IH]; [reflexivity|].
  simpl insert_by. destruct (str_ltb (key b) (key a)) eqn:Hlt; [|reflexivity].
  simpl filter at 1. rewrite IH. simpl.
  destruct (str_eqb_spec (key a) k) as [Ha|Ha];
    destruct (str_eqb_spec (key b) k) as [Hb|Hb]; try reflexivity.
  rewrite Ha, Hb, str_ltb_irrefl in Hlt. discriminate Hlt.
Qed.

Lemma sorted_by_stable k l :
  filter (fun b => str_eqb (key b) k) (sorted_by key l) =
  filter (fun b => str_eqb (key b) k) l.
Proof.
  induction l as [|a l IH]; [reflexivity|].
  simpl sorted_by. rewrite insert_by_stable. simpl. rewrite IH. reflexivity.
Qed.
End SortedBy.

(* ------------------------------------------------------------------ *)
(** ** Stripping *)

Lemma lstrip_by_nil p s : lstrip_by p s = [] <-> forallb p s = true.
Proof.
  induction s as [|c s IH]; simpl; [tauto|].
  destruct (p c); simpl; [exact IH|]. split; discriminate.
Qed.

Lemma forallb_lstrip_by p s : forallb p (lstrip_by p s) = forallb p s.
Proof.
  induction s as [|c s IH]; simpl; [reflexivity|].
  destruct (p c) eqn:Hc; simpl; [exact IH|]. rewrite Hc. reflexivity.
Qed.

Lemma forallb_rev {A} (p : A -> bool) (l : list A) :
  forallb p (rev l) = forallb p l.
Proof.
  induction l as [|a l IH]; simpl; [reflexivity|].
  rewrite forallb_app, IH. simpl. rewrite andb_true_r. apply andb_comm.
Qed.

(** A title is non-empty once trimmed exactly when one of its characters
    is not whitespace. *)
Lemma nonblank_existsb t :
  nonblank t = existsb (fun c => negb (isspace c)) t.
Proof.
  assert (Hall : nonblank t = negb (forallb isspace t)).
  { unfold nonblank, strip, rstrip_by.
    destruct (rev (lstrip_by isspace (rev (lstrip_by isspace t)))) as [|c r] eqn:Hs.
    - apply (f_equal (@rev N)) in Hs. rewrite rev_involutive in Hs. simpl in Hs.
      apply lstrip_by_nil in Hs.
      rewrite forallb_rev, forallb_lstrip_by in Hs. rewrite Hs. reflexivity.
    - destruct (forallb isspace t) eqn:Hf; [|reflexivity].
      rewrite <- forallb_lstrip_by, <- forallb_rev in Hf.
      apply lstrip_by_nil in Hf. rewrite Hf in Hs. discriminate Hs. }
  rewrite Hall. clear Hall. induction t as [|c t IH]; simpl; [reflexivity|].
  rewrite negb_andb, IH. reflexivity.
Qed.

Lemma nonblank_strip t : nonblank t = true <-> strip t <> [].
Proof.
  unfold nonblank. destruct (strip t); split; congruence.
Qed.

(* ------------------------------------------------------------------ *)
(** ** enumerate_windows *)

Section Directory.
Variable lower : str -> str.
Variables (env : Env) (s : OS).
Hypothesis still : forall t, os env t = s.

Lemma get_window_text_run h w :
  exists w', WindowsAPI.get_window_text h env w = (Ok (window_title s h), w').
Proof.
  unfold WindowsAPI.get_window_text, window_title, bind, call, ret. simpl.
  rewrite still.
  destruct (GetWindowTextLengthW s h <=? 0); simpl; rewrite ?still;
    eexists; reflexivity.
Qed.

Lemma enum_callback_run windows h w :
  exists w',
    WindowsAPI.enum_callback windows h env w =
      (Ok (if listed s h then windows ++ [descriptor s h] else windows), w').
Proof.
  unfold WindowsAPI.enum_callback, WindowsAPI.is_window_visible, listed, visible.
  unfold bind at 1 2. unfold call, ret. simpl. rewrite still.
  destruct (bool_of_int (IsWindowVisible s h)); simpl;
    [|eexists; reflexivity].
  unfold bind.
  match goal with
  | |- context [WindowsAPI.get_window_text h env ?ww] =>
      destruct (get_window_text_run h ww) as [w' ->]
  end.
  unfold nonblank, descriptor.
  destruct (strip (window_title s h)); eexists; reflexivity.
Qed.

Lemma for_each_window_run handles windows w :
  exists w',
    WindowsAPI.for_each_window windows handles env w =
      (Ok (windows ++ map (descriptor s) (filter (listed s) handles)), w').
Proof.
  revert windows w. induction handles as [|h handles IH]; intros windows w; simpl.
  - rewrite app_nil_r. eexists; reflexivity.
  - unfold bind. destruct (enum_callback_run windows h w) as [w1 ->].
    destruct (IH (if listed s h then windows ++ [descriptor s h] else windows) w1)
      as [w2 ->].
    destruct (listed s h); simpl; [rewrite <- app_assoc|]; eexists; reflexivity.
Qed.

(** The result is the stable sort, by lowered title, of the windows that
    qualify. *)
Lemma enumerate_windows_run w :
  exists w',
    WindowsAPI.enumerate_windows lower env w =
      (Ok (sorted_by (fun d => lower (title d)) (qualifying_windows s)), w').
Proof.
  unfold WindowsAPI.enumerate_windows, qualifying_windows.
  unfold bind at 1. unfold call. simpl. rewrite still.
  unfold bind.
  match goal with
  | |- context [WindowsAPI.for_each_window [] ?hs env ?ww] =>
      destruct (for_each_window_run hs [] ww) as [w' ->]
  end.
  simpl. eexists; reflexivity.
Qed.

End Directory.

(** C6: on any state of the operating system that holds still during the
    call, enumerate_windows returns normally a list that holds exactly
    the top-level windows that are visible and whose title is non-empty
    once trimmed, each as often as it was enumerated, and that is sorted
    in ascending order of the lower-cased title; the list is empty when
    no window qualifies. *)
Theorem enumerate_windows_lists_qualifying_sorted lower env s w :
  (forall t, os env t = s) ->
  exists l w',
    WindowsAPI.enumerate_windows lower env w = (Ok l, w') /\
    Permutation l (qualifying_windows s) /\
    (forall d, In d l <->
       In (hwnd d) (top_level_windows s) /\
       visible s (hwnd d) = true /\
       title d = window_title s (hwnd d) /\
       strip (title d) <> []) /\
    StronglySorted (fun a b => str_le (lower (title a)) (lower (title b))) l /\
    ((forall h, In h (top_level_windows s) -> listed s h = false) -> l = []).
Proof.
  intros Hstill.
  destruct (enumerate_windows_run lower env s Hstill w) as [w' Hrun].
  do 2 eexists. split; [exact Hrun|].
  assert (Hperm := sorted_by_perm (fun d => lower (title d)) (qualifying_windows s)).
  split; [exact Hperm|]. split; [|split].
  - intros d. split.
    + intros Hd. apply (Permutation_in _ Hperm) in Hd.
      unfold qualifying_windows in Hd. apply in_map_iff in Hd.
      destruct Hd as (h & <- & Hh). apply filter_In in Hh.
      destruct Hh as [Hin Hl]. unfold listed in Hl.
      apply andb_true_iff in Hl. destruct Hl as [Hv Hb]. simpl.
      repeat split; try assumption. apply nonblank_strip. exact Hb.
    + intros (Hin & Hv & Ht & Hb).
      apply (Permutation_in _ (Permutation_sym Hperm)).
      unfold qualifying_windows. apply in_map_iff. exists (hwnd d). split.
      * destruct d as [h t]. simpl in *. unfold descriptor. congruence.
      * apply filter_In. split; [exact Hin|]. unfold listed.
        rewrite Hv. simpl. apply nonblank_strip. rewrite <- Ht. exact Hb.
  - apply sorted_by_sorted.
  - intros Hnone. unfold qualifying_windows.
    replace (filter (listed s) (top_level_windows s)) with (@nil Z);
      [reflexivity|].
    symmetry. induction (top_level_windows s) as [|h hs IH]; simpl; [reflexivity|].
    rewrite (Hnone h) by (left; reflexivity).
    apply IH. intros h' Hh'. apply Hnone. right. exact Hh'.
Qed.

Lemma enumerate_windows_lists_qualifying_sorted_witness :
  (forall t, os Scenario.still t = Scenario.desktop) /\
  exists w',
    WindowsAPI.enumerate_windows Scenario.lower Scenario.still Scenario.start =
      (Ok [{| hwnd := 7; title := lit "abc" |};
           {| hwnd := 9; title := lit "Abd" |}], w') /\
    Permutation [{| hwnd := 7; title := lit "abc" |};
                 {| hwnd := 9; title := lit "Abd" |}]
      (qualifying_windows Scenario.desktop).
Proof.
  split; [reflexivity|].
  destruct (enumerate_windows_lists_qualifying_sorted Scenario.lower
              Scenario.still Scenario.desktop Scenario.start
              (fun t => eq_refl))
    as (l & w' & Hrun & Hperm & _).
  assert (Hl : l = [{| hwnd := 7; title := lit "abc" |};
                    {| hwnd := 9; title := lit "Abd" |}]).
  { vm_compute in Hrun. injection Hrun as <- _. reflexivity. }
  rewrite Hl in Hrun, Hperm. exists w'. split; assumption.
Defined.

(* ------------------------------------------------------------------ *)
(** ** Further properties: window texts and the directory *)

Lemma lstrip_by_repeat p c n s :
  p c = true -> lstrip_by p (repeat c n ++ s) = lstrip_by p s.
Proof.
  intros Hc. induction n as [|n IH]; simpl; [reflexivity|].
  rewrite Hc. exact IH.
Qed.

Lemma rev_repeat_same {A} (c : A) n : rev (repeat c n) = repeat c n.
Proof.
  induction n as [|n IH]; simpl; [reflexivity|].
  rewrite IH. symmetry. apply repeat_cons.
Qed.

Lemma rstrip_by_padding p c n s :
  p c = true -> rstrip_by p (s ++ repeat c n) = rstrip_by p s.
Proof.
  intros Hc. unfold rstrip_by.
  rewrite rev_app_distr, rev_repeat_same, lstrip_by_repeat by exact Hc.
  reflexivity.
Qed.

(** What is stripped is a prefix: the rest satisfies the test. *)
Lemma lstrip_by_split p s :
  exists space, s = space ++ lstrip_by p s /\ forallb p space = true.
Proof.
  induction s as [|c s (space & Hs & Hp)]; simpl.
  - exists []. auto.
  - destruct (p c) eqn:Hc.
    + exists (c :: space). simpl. rewrite Hc, Hp. split; [congruence|reflexivity].
    + exists []. auto.
Qed.

Lemma lstrip_by_head p s c r : lstrip_by p s = c :: r -> p c = false.
Proof.
  induction s as [|d s IH]; simpl; [discriminate|].
  destruct (p d) eqn:Hd; [exact IH|]. intros H. injection H as <- _. exact Hd.
Qed.

Lemma rstrip_by_split p s :
  exists space, s = rstrip_by p s ++ space /\ forallb p space = true.
Proof.
  unfold rstrip_by.
  destruct (lstrip_by_split p (rev s)) as (space & Hs & Hp).
  exists (rev space). split.
  - rewrite <- rev_app_distr, <- Hs, rev_involutive. reflexivity.
  - rewrite forallb_rev. exact Hp.
Qed.

Lemma rstrip_by_last p s r c : rstrip_by p s = r ++ [c] -> p c = false.
Proof.
  unfold rstrip_by. intros H.
  apply (f_equal (@rev N)) in H. rewrite rev_involutive, rev_app_distr in H.
  simpl in H. exact (lstrip_by_head _ _ _ _ H).
Qed.

Lemma length_rstrip_by p s : (List.length (rstrip_by p s) <= List.length s)%nat.
Proof.
  destruct (rstrip_by_split p s) as (space & Hs & _).
  rewrite Hs at 2. rewrite length_app. lia.
Qed.

(** X1: when the reported length is positive, [get_window_text] asks
    for the length, then for the text with a buffer one longer, and
    returns the first [length] characters of the text without the NULs
    at their end; so a text that has grown since its length was asked
    comes back cut. *)
Theorem get_window_text_cuts_at_length env w h :
  0 < GetWindowTextLengthW (os env (clock w)) h ->
  WindowsAPI.get_window_text h env w =
    (Ok (rstrip_nul
           (firstn (Z.to_nat (GetWindowTextLengthW (os env (clock w)) h))
                   (window_text (os env (S (clock w))) h))),
     {| clock := (2 + clock w)%nat;
        log := log w ++
               [EvGetWindowTextLengthW h;
                EvGetWindowTextW h (GetWindowTextLengthW (os env (clock w)) h + 1)] |}).
Proof.
  intros Hpos. unfold WindowsAPI.get_window_text, bind, call, ret. simpl.
  destruct (Z.leb_spec (GetWindowTextLengthW (os env (clock w)) h) 0)
    as [Hle|_]; [lia|].
  simpl. unfold WindowsAPI.fill_buffer, rstrip_nul.
  replace (Z.to_nat (GetWindowTextLengthW (os env (clock w)) h + 1) - 1)%nat
    with (Z.to_nat (GetWindowTextLengthW (os env (clock w)) h)) by lia.
  rewrite rstrip_by_padding by reflexivity.
  rewrite <- app_assoc. reflexivity.
Qed.

Lemma get_window_text_cuts_at_length_witness :
  0 < GetWindowTextLengthW (os Scenario.still 0) 7 /\
  WindowsAPI.get_window_text 7 Scenario.still Scenario.start =
    (Ok (lit "abc"),
     {| clock := 2;
        log := [EvGetWindowTextLengthW 7; EvGetWindowTextW 7 4] |}).
Proof.
  split; [reflexivity|].
  exact (get_window_text_cuts_at_length Scenario.still Scenario.start 7 eq_refl).
Defined.

(** X2: a text that is not longer than the length reported for it and
    does not end in NUL is returned as it is. *)
Theorem get_window_text_returns_whole_text env w h :
  0 < GetWindowTextLengthW (os env (clock w)) h ->
  (List.length (window_text (os env (S (clock w))) h)
   <= Z.to_nat (GetWindowTextLengthW (os env (clock w)) h))%nat ->
  rstrip_nul (window_text (os env (S (clock w))) h)
    = window_text (os env (S (clock w))) h ->
  fst (WindowsAPI.get_window_text h env w)
    = Ok (window_text (os env (S (clock w))) h).
Proof.
  intros Hpos Hfit Hclean.
  rewrite (get_window_text_cuts_at_length env w h Hpos). simpl.
  rewrite firstn_all2 by exact Hfit. rewrite Hclean. reflexivity.
Qed.

Lemma get_window_text_returns_whole_text_witness :
  0 < GetWindowTextLengthW (os Scenario.still 0) 8 /\
  (List.length (window_text (os Scenario.still 1) 8) <= 3)%nat /\
  fst (WindowsAPI.get_window_text 8 Scenario.still Scenario.start)
    = Ok (lit "  ").
Proof.
  split; [reflexivity|]. split; [simpl; lia|].
  apply (get_window_text_returns_whole_text Scenario.still Scenario.start 8).
  - reflexivity.
  - simpl. lia.
  - reflexivity.
Defined.

(** X3: whatever the system answers, [get_window_text] returns a string
    and does not raise; the string is never longer than the reported
    length and never ends in NUL. *)
Theorem get_window_text_is_bounded_and_clean env w h :
  exists t w',
    WindowsAPI.get_window_text h env w = (Ok t, w') /\
    (List.length t <= Z.to_nat (GetWindowTextLengthW (os env (clock w)) h))%nat /\
    forall r, t <> r ++ [0%N].
Proof.
  destruct (Z.leb_spec (GetWindowTextLengthW (os env (clock w)) h) 0)
    as [Hle|Hpos].
  - unfold WindowsAPI.get_window_text, bind, call, ret. simpl.
    destruct (Z.leb_spec (GetWindowTextLengthW (os env (clock w)) h) 0)
      as [_|Hpos]; [|lia].
    do 2 eexists. split; [reflexivity|]. split; [simpl; lia|].
    intros r Hr. destruct r; discriminate Hr.
  - rewrite (get_window_text_cuts_at_length env w h Hpos).
    do 2 eexists. split; [reflexivity|]. split.
    + unfold rstrip_nul.
      etransitivity; [apply length_rstrip_by|]. apply firstn_le_length.
    + intros r Hr. unfold rstrip_nul in Hr.
      apply rstrip_by_last in Hr. discriminate Hr.
Qed.

Lemma get_window_text_asks env w h :
  exists t w' evs,
    WindowsAPI.get_window_text h env w = (Ok t, w') /\
    log w' = log w ++ evs /\ forallb is_query evs = true.
Proof.
  unfold WindowsAPI.get_window_text, bind, call, ret. simpl.
  destruct (GetWindowTextLengthW (os env (clock w)) h <=? 0); simpl.
  - do 3 eexists. split; [reflexivity|]. split; reflexivity.
  - do 3 eexists. split; [reflexivity|].
    rewrite <- app_assoc. split; reflexivity.
Qed.

Lemma enum_callback_asks env w windows h :
  exists l w' evs,
    WindowsAPI.enum_callback windows h env w = (Ok l, w') /\
    log w' = log w ++ evs /\ forallb is_query evs = true /\
    (l = windows \/
     exists t, l = windows ++ [{| hwnd := h; title := t |}] /\ strip t <> []).
Proof.
  unfold WindowsAPI.enum_callback, WindowsAPI.is_window_visible.
  unfold bind at 1 2. unfold call, ret. simpl.
  destruct (bool_of_int (IsWindowVisible (os env (clock w)) h)); simpl.
  - unfold bind.
    match goal with
    | |- context [WindowsAPI.get_window_text h env ?ww] =>
        destruct (get_window_text_asks env ww h) as (t & w1 & evs & -> & Hlog & Hq)
    end.
    simpl in Hlog.
    destruct (strip t) as [|c r] eqn:Ht.
    + exists windows, w1, (EvIsWindowVisible h :: evs).
      split; [reflexivity|]. rewrite Hlog, <- app_assoc.
      split; [reflexivity|]. split; [exact Hq|]. left; reflexivity.
    + exists (windows ++ [{| hwnd := h; title := t |}]), w1,
        (EvIsWindowVisible h :: evs).
      split; [reflexivity|]. rewrite Hlog, <- app_assoc.
      split; [reflexivity|]. split; [exact Hq|].
      right. exists t. split; [reflexivity|]. rewrite Ht. discriminate.
  - do 3 eexists. split; [reflexivity|]. split; [reflexivity|].
    split; [reflexivity|]. left; reflexivity.
Qed.

Lemma for_each_window_asks env handles w windows :
  exists l w' evs,
    WindowsAPI.for_each_window windows handles env w = (Ok (windows ++ l), w') /\
    log w' = log w ++ evs /\ forallb is_query evs = true /\
    forall d, In d l -> In (hwnd d) handles /\ strip (title d) <> [].
Proof.
  revert w windows. induction handles as [|h handles IH]; intros w windows; simpl.
  - exists [], w, []. rewrite !app_nil_r.
    split; [reflexivity|]. split; [reflexivity|]. split; [reflexivity|].
    intros d [].
  - unfold bind.
    destruct (enum_callback_asks env w windows h)
      as (l1 & w1 & evs1 & -> & Hlog1 & Hq1 & Hl1).
    destruct (IH w1 l1) as (l2 & w2 & evs2 & -> & Hlog2 & Hq2 & Hl2).
    destruct Hl1 as [->|(t & -> & Ht)].
    + exists l2, w2, (evs1 ++ evs2). split; [reflexivity|].
      rewrite Hlog2, Hlog1, <- app_assoc. split; [reflexivity|].
      rewrite forallb_app, Hq1, Hq2. split; [reflexivity|].
      intros d Hd. destruct (Hl2 d Hd). auto.
    + exists ({| hwnd := h; title := t |} :: l2), w2, (evs1 ++ evs2).
      rewrite <- app_assoc. split; [reflexivity|].
      rewrite Hlog2, Hlog1, <- app_assoc. split; [reflexivity|].
      rewrite forallb_app, Hq1, Hq2. split; [reflexivity|].
      intros d [<-|Hd]; [simpl; auto|]. destruct (Hl2 d Hd). auto.
Qed.

(** X4: whatever the system answers, and even if it changes while the
    windows are visited, [enumerate_windows] returns a list and does not
    raise; it does nothing but ask (it enumerates, and asks for
    visibility, text length and text); every window of the list was
    among the handles enumerated and has a title that is not blank; and
    the list is sorted by lowered title. *)
Theorem enumerate_windows_only_asks lower env w :
  exists l w' evs,
    WindowsAPI.enumerate_windows lower env w = (Ok l, w') /\
    log w' = log w ++ evs /\ forallb is_query evs = true /\
    (forall d, In d l ->
       In (hwnd d) (top_level_windows (os env (clock w))) /\
       strip (title d) <> []) /\
    StronglySorted (fun a b => str_le (lower (title a)) (lower (title b))) l.
Proof.
  unfold WindowsAPI.enumerate_windows.
  unfold bind at 1. unfold call.
  match goal with
  | |- context [bind (WindowsAPI.for_each_window [] ?hs) _ env ?ww] =>
      destruct (for_each_window_asks env hs ww [])
        as (l & w' & evs & Hrun & Hlog & Hq & Hl)
  end.
  unfold bind. rewrite Hrun. simpl in Hlog |- *.
  exists (sorted_by (fun d => lower (title d)) l), w', (EvEnumWindows :: evs).
  split; [reflexivity|]. rewrite Hlog, <- app_assoc.
  split; [reflexivity|]. split; [exact Hq|]. split.
  - intros d Hd.
    apply (Permutation_in _ (sorted_by_perm (fun d => lower (title d)) l)) in Hd.
    exact (Hl d Hd).
  - apply sorted_by_sorted.
Qed.

(** X5: on a system that holds still, windows whose lowered titles are
    equal come out in the order in which they were enumerated. *)
Theorem enumerate_windows_keeps_order_of_equal_titles lower env s w k :
  (forall t, os env t = s) ->
  exists l w',
    WindowsAPI.enumerate_windows lower env w = (Ok l, w') /\
    filter (fun d => str_eqb (lower (title d)) k) l =
    filter (fun d => str_eqb (lower (title d)) k) (qualifying_windows s).
Proof.
  intros Hstill.
  destruct (enumerate_windows_run lower env s Hstill w) as [w' Hrun].
  do 2 eexists. split; [exact Hrun|].
  apply (sorted_by_stable (fun d => lower (title d))).
Qed.

Lemma enumerate_windows_keeps_order_of_equal_titles_witness :
  (forall t, os Scenario.twins t = Scenario.twin_desktop) /\
  exists l w',
    WindowsAPI.enumerate_windows Scenario.lower Scenario.twins Scenario.start
      = (Ok l, w') /\
    filter (fun d => str_eqb (Scenario.lower (title d)) (lit "abd")) l =
    [{| hwnd := 9; title := lit "Abd" |}; {| hwnd := 4; title := lit "abd" |};
     {| hwnd := 3; title := lit "ABD" |}].
Proof.
  split; [reflexivity|].
  destruct (enumerate_windows_keeps_order_of_equal_titles Scenario.lower
              Scenario.twins Scenario.twin_desktop Scenario.start (lit "abd")
              (fun t => eq_refl)) as (l & w' & Hrun & Hkeep).
  exists l, w'. split; [exact Hrun|]. rewrite Hkeep. reflexivity.
Defined.

(* ------------------------------------------------------------------ *)
(** ** Further properties: the click *)

Lemma click_sequence_of_click_on k h lParam :
  forallb (of_click_on h) (click_sequence k h lParam) = true.
Proof.
  unfold click_sequence.
  destruct (str_eqb k (lit "Left Click"));
    [|destruct (str_eqb k (lit "Right Click"));
      [|destruct (str_eqb k (lit "Double Click"))]];
    simpl; rewrite ?Z.eqb_refl; reflexivity.
Qed.

Lemma send_mouse_click_same_os env env' w h px py k :
  (forall t, os env' t = os env t) ->
  WindowsAPI.send_mouse_click h px py k env' w =
  WindowsAPI.send_mouse_click h px py k env w.
Proof.
  intros Hos.
  assert (Hv : valid_at env' (clock w) h = valid_at env (clock w) h)
    by (unfold valid_at; rewrite Hos; reflexivity).
  assert (Hc : client_point env' (S (clock w)) h px py
               = client_point env (S (clock w)) h px py)
    by (unfold client_point; rewrite Hos; reflexivity).
  destruct (valid_at env (clock w) h) eqn:Hvalid.
  - rewrite (send_mouse_click_valid_run env' w h px py k Hv).
    rewrite (send_mouse_click_valid_run env w h px py k Hvalid).
    rewrite Hc. reflexivity.
  - rewrite (send_mouse_click_invalid_run env' w h px py k Hv).
    rewrite (send_mouse_click_invalid_run env w h px py k Hvalid).
    reflexivity.
Qed.

(** X6: a click deals with its own window only.  Whatever its kind and
    whether or not it succeeds, every call it makes is a validity check,
    a conversion or a post on the handle it was given, or a sleep: it
    never samples or moves the cursor, never touches a widget and never
    addresses another window.  And it reads nothing of the application
    object: under any other contents of [self] it does the same. *)
Theorem click_deals_with_its_window_only env w h px py k :
  (exists r w' evs,
     WindowsAPI.send_mouse_click h px py k env w = (r, w') /\
     log w' = log w ++ evs /\
     forallb (of_click_on h) evs = true) /\
  (forall view,
     WindowsAPI.send_mouse_click h px py k {| os := os env; self := view |} w =
     WindowsAPI.send_mouse_click h px py k env w).
Proof.
  split.
  - destruct (valid_at env (clock w) h) eqn:Hv.
    + rewrite (send_mouse_click_valid_run env w h px py k Hv).
      destruct (client_point env (S (clock w)) h px py) as [cx cy].
      do 3 eexists. split; [reflexivity|]. split; [reflexivity|].
      simpl. rewrite Z.eqb_refl. simpl. apply click_sequence_of_click_on.
    + rewrite (send_mouse_click_invalid_run env w h px py k Hv).
      do 3 eexists. split; [reflexivity|]. split; [reflexivity|].
      simpl. rewrite Z.eqb_refl. reflexivity.
  - intros view. apply send_mouse_click_same_os. reflexivity.
Qed.

Lemma signed16_range (n : Z) :
  0 <= n < 2 ^ 16 -> - 2 ^ 15 <= signed16 n < 2 ^ 15.
Proof.
  intros Hn. unfold signed16. destruct (Z.ltb_spec n (2 ^ 15)); lia.
Qed.

Lemma signed16_mod_iff (n : Z) :
  signed16 (n mod 2 ^ 16) = n <-> - 2 ^ 15 <= n < 2 ^ 15.
Proof.
  split.
  - intros H. rewrite <- H. apply signed16_range.
    apply Z.mod_pos_bound. lia.
  - apply signed16_mod.
Qed.

(** X7: the receiver of a posted message reads the position back from
    the low and the high word of the parameter, each as a signed 16-bit
    number.  For every message of a click, what it reads is the client
    x exactly when the client x lies in [-32768, 32767], and likewise
    for y; outside this range the coordinate arrives wrapped. *)
Theorem posted_position_reads_back_iff_16_bit
    env w h px py k h' Msg wParam lParam :
  In (EvPostMessageW h' Msg wParam lParam)
     (events_since w (snd (WindowsAPI.send_mouse_click h px py k env w))) ->
  let '(cx, cy) := client_point env (S (clock w)) h px py in
  (signed16 (LOWORD lParam) = cx <-> - 2 ^ 15 <= cx < 2 ^ 15) /\
  (signed16 (HIWORD lParam) = cy <-> - 2 ^ 15 <= cy < 2 ^ 15).
Proof.
  destruct (valid_at env (clock w) h) eqn:Hv.
  - rewrite (send_mouse_click_valid_run env w h px py k Hv).
    destruct (client_point env (S (clock w)) h px py) as [cx cy].
    cbv zeta. unfold snd. rewrite events_since_app.
    intros [H|[H|H]]; try discriminate.
    apply In_click_sequence in H. destruct H as [_ ->].
    rewrite LOWORD_make_lParam, HIWORD_make_lParam.
    split; apply signed16_mod_iff.
  - rewrite (send_mouse_click_invalid_run env w h px py k Hv).
    unfold snd. rewrite events_since_app.
    intros [H|[]]. discriminate.
Qed.

Lemma posted_position_reads_back_iff_16_bit_witness :
  In (EvPostMessageW 7 0x0201 1 11796570)
     (events_since Scenario.start
        (snd (WindowsAPI.send_mouse_click 7 100 200 (lit "Left Click")
                Scenario.still Scenario.start))) /\
  signed16 (LOWORD 11796570) = 90 /\ signed16 (HIWORD 11796570) = 180.
Proof.
  assert (Hin : In (EvPostMessageW 7 0x0201 1 11796570)
     (events_since Scenario.start
        (snd (WindowsAPI.send_mouse_click 7 100 200 (lit "Left Click")
                Scenario.still Scenario.start)))).
  { vm_compute. right. right. left. reflexivity. }
  split; [exact Hin|].
  pose proof (posted_position_reads_back_iff_16_bit
                Scenario.still Scenario.start 7 100 200 (lit "Left Click")
                7 0x0201 1 11796570 Hin) as H.
  change (client_point Scenario.still (S (clock Scenario.start)) 7 100 200)
    with (90, 180) in H.
  destruct H as [Hx Hy].
  split; [apply (proj2 Hx); lia|apply (proj2 Hy); lia].
Defined.

(* ------------------------------------------------------------------ *)
(** ** Further properties: the clicking loop *)

(** A turn on a window that is live at both checks: what it reads, at
    which tick, and what it does with it. *)
Lemma iteration_run int env w win win' p p' :
  is_running (self env (clock w)) = true ->
  selected_window (self env (1 + clock w)) = Some win ->
  valid_at env (2 + clock w) (hwnd win) = true ->
  selected_window (self env (3 + clock w)) = Some win' ->
  click_position (self env (4 + clock w)) = Some p ->
  click_position (self env (5 + clock w)) = Some p' ->
  valid_at env (7 + clock w) (hwnd win') = true ->
  let k := click_type_var (self env (6 + clock w)) in
  let '(cx, cy) := client_point env (8 + clock w) (hwnd win') (x p) (y p') in
  let click := click_sequence k (hwnd win') (WindowsAPI.make_lParam cx cy) in
  let n := (List.length click + 9 + clock w)%nat in
  let evs := [EvIsWindow (hwnd win); EvIsWindow (hwnd win');
              EvScreenToClient (hwnd win') (c_long (x p)) (c_long (y p'))]
             ++ click in
  iteration int env w =
    match int (delay_var (self env n)) with
    | Raise e => (Raise e, {| clock := S n; log := log w ++ evs |})
    | Ok d =>
        if d <? 0
        then (Raise (ValueError (lit "sleep length must be non-negative")),
              {| clock := S n; log := log w ++ evs |})
        else (Ok None,
              {| clock := S (S n); log := log w ++ evs ++ [EvSleep d] |})
    end.
Proof.
  intros Hr Hw Hv Hw' Hp Hp' Hv'. unfold valid_at in Hv.
  unfold iteration, read_attr, WindowsAPI.is_window_valid, emit, bind, read,
    call, ret, raise, lift, sleep.
  simpl in *. rewrite Hr. simpl. rewrite Hw. simpl. rewrite Hv. simpl.
  rewrite Hw'. simpl. rewrite Hp. simpl. rewrite Hp'. simpl.
  match goal with
  | |- context [WindowsAPI.send_mouse_click ?h ?a ?b ?k ?e ?ww] =>
      rewrite (send_mouse_click_valid_run e ww h a b k Hv')
  end.
  simpl.
  destruct (client_point env _ _ _ _) as [cx cy]. simpl.
  match goal with
  | |- context [(List.length ?c + 9 + clock w)%nat] =>
      replace (List.length c + 9 + clock w)%nat
        with (List.length c + S (S (S (S (S (S (S (S (S (clock w))))))))))%nat
        by lia
  end.
  destruct (int _) as [d|e]; simpl.
  - destruct (d <? 0); simpl; rewrite <- !app_assoc; reflexivity.
  - rewrite <- !app_assoc; reflexivity.
Qed.






(** A turn while nothing changes but the flag. *)
Lemma steady_turn int env s a flag w win p :
  steady env s a flag ->
  flag (clock w) = true ->
  selected_window a = Some win -> click_position a = Some p ->
  bool_of_int (IsWindow s (hwnd win)) = true ->
  let '(cx, cy) := client_point_of s (hwnd win) (x p) (y p) in
  let click := click_sequence (click_type_var a) (hwnd win)
                 (WindowsAPI.make_lParam cx cy) in
  let n := (List.length click + 9 + clock w)%nat in
  let evs := [EvIsWindow (hwnd win); EvIsWindow (hwnd win);
              EvScreenToClient (hwnd win) (c_long (x p)) (c_long (y p))]
             ++ click in
  iteration int env w =
    match int (delay_var a) with
    | Raise e => (Raise e, {| clock := S n; log := log w ++ evs |})
    | Ok d =>
        if d <? 0
        then (Raise (ValueError (lit "sleep length must be non-negative")),
              {| clock := S n; log := log w ++ evs |})
        else (Ok None,
              {| clock := S (S n); log := log w ++ evs ++ [EvSleep d] |})
    end.
Proof.
  intros [Hos Hself] Hflag Hw Hp Hv.
  pose proof (iteration_run int env w win win p p) as H.
  cbv zeta in H. unfold valid_at, client_point in H.
  rewrite !Hos in H. fold (client_point_of s (hwnd win) (x p) (y p)) in H.
  destruct (client_point_of s (hwnd win) (x p) (y p)) as [cx cy].
  rewrite !Hself in H. simpl in H.
  apply H; assumption.
Qed.







(** X12: a delay the validator accepted and that is not empty is an
    integer between 1 and 999999, so the turn that reads it, while
    nothing else changes, runs to its end and sleeps that long. *)
Theorem validated_delay_lets_the_turn_complete
    int env s a flag w win p :
  steady env s a flag ->
  flag (clock w) = true ->
  selected_window a = Some win -> click_position a = Some p ->
  bool_of_int (IsWindow s (hwnd win)) = true ->
  _validate_delay int (delay_var a) = Ok true -> delay_var a <> [] ->
  let '(cx, cy) := client_point_of s (hwnd win) (x p) (y p) in
  let click := click_sequence (click_type_var a) (hwnd win)
                 (WindowsAPI.make_lParam cx cy) in
  exists d,
    int (delay_var a) = Ok d /\ 1 <= d <= 999999 /\
    iteration int env w =
      (Ok None,
       {| clock := (List.length click + 11 + clock w)%nat;
          log := log w ++
                 turn_events (hwnd win) (hwnd win) (x p) (y p) click d |}).
Proof.
  intros Hsteady Hflag Hw Hp Hv Hvalid Hne.
  pose proof (steady_turn int env s a flag w win p Hsteady Hflag Hw Hp Hv)
    as Hturn.
  destruct (client_point_of s (hwnd win) (x p) (y p)) as [cx cy].
  cbv zeta in Hturn |- *.
  unfold _validate_delay in Hvalid.
  destruct (delay_var a) as [|c v] eqn:Hdelay; [congruence|].
  destruct (int (c :: v)) as [d|e] eqn:Hint.
  - injection Hvalid as Hrange. apply andb_true_iff in Hrange.
    destruct Hrange as [Hlo Hhi].
    apply Z.leb_le in Hlo. apply Z.leb_le in Hhi.
    exists d. split; [reflexivity|]. split; [lia|].
    destruct (Z.ltb_spec d 0) as [Hneg|_]; [lia|].
    rewrite Hturn. unfold turn_events. f_equal. f_equal. lia.
  - destruct e; discriminate Hvalid.
Qed.

Lemma validated_delay_lets_the_turn_complete_witness :
  _validate_delay Scenario.int (delay_var Scenario.app) = Ok true /\
  exists d,
    Scenario.int (delay_var Scenario.app) = Ok d /\ 1 <= d <= 999999 /\
    iteration Scenario.int Scenario.still Scenario.start =
      (Ok None,
       {| clock := 14;
          log := [EvIsWindow 7; EvIsWindow 7; EvScreenToClient 7 100 200;
                  EvPostMessageW 7 0x0201 1 11796570; EvSleep 10;
                  EvPostMessageW 7 0x0202 0 11796570; EvSleep d] |}).
Proof.
  split; [reflexivity|].
  apply (validated_delay_lets_the_turn_complete Scenario.int Scenario.still
           Scenario.desktop Scenario.app (fun _ => true) Scenario.start
           {| hwnd := 7; title := lit "abc" |} {| x := 100; y := 200 |}).
  - split; intros t; reflexivity.
  - reflexivity.
  - reflexivity.
  - reflexivity.
  - reflexivity.
  - reflexivity.
  - intros H. discriminate H.
Defined.

(** X13: a turn looks at [is_running] once, at its top.  Whatever the
    flag does at any other instant (Stop pressed and Start pressed again
    while the turn is under way), the turn is the same: a stop that is
    taken back before the next test goes unseen. *)
Theorem turn_sees_the_flag_only_at_its_top int env flag w :
  flag (clock w) = is_running (self env (clock w)) ->
  iteration int (with_is_running flag env) w = iteration int env w.
Proof.
  intros Hflag.
  unfold iteration, read_attr, WindowsAPI.is_window_valid, emit, bind, read,
    call, ret, raise, lift, sleep.
  simpl. rewrite Hflag.
  destruct (is_running (self env (clock w))); [|reflexivity].
  simpl.
  destruct (selected_window (self env (S (clock w)))) as [win|]; [|reflexivity].
  simpl.
  destruct (bool_of_int (IsWindow (os env (S (S (clock w)))) (hwnd win)));
    [|reflexivity].
  simpl.
  destruct (selected_window (self env (S (S (S (clock w)))))) as [win'|];
    [|reflexivity].
  simpl.
  destruct (click_position (self env (S (S (S (S (clock w))))))) as [p|];
    [|reflexivity].
  simpl.
  destruct (click_position (self env (S (S (S (S (S (clock w)))))))) as [p'|];
    [|reflexivity].
  simpl.
  rewrite (send_mouse_click_same_os env (with_is_running flag env))
    by reflexivity.
  destruct (WindowsAPI.send_mouse_click _ _ _ _ env _) as [[[]|e] w'];
    [|reflexivity].
  destruct (int _) as [d|e]; [|reflexivity].
  destruct (d <? 0); reflexivity.
Qed.

Lemma turn_sees_the_flag_only_at_its_top_witness :
  (fun t => negb (Nat.leb 3 t && Nat.leb t 9)) 0%nat
    = is_running (self Scenario.still 0) /\
  is_running (self (with_is_running
                      (fun t => negb (Nat.leb 3 t && Nat.leb t 9))
                      Scenario.still) 5) = false /\
  iteration Scenario.int
    (with_is_running (fun t => negb (Nat.leb 3 t && Nat.leb t 9)) Scenario.still)
    Scenario.start
  = iteration Scenario.int Scenario.still Scenario.start.
Proof.
  split; [reflexivity|]. split; [reflexivity|].
  exact (turn_sees_the_flag_only_at_its_top Scenario.int Scenario.still
           (fun t => negb (Nat.leb 3 t && Nat.leb t 9)) Scenario.start eq_refl).
Defined.






(* ------------------------------------------------------------------ *)
(** ** Further properties: start and stop, and the list of windows *)

(** X15: with a live window and a position selected, pressing the
    start/stop key twice starts exactly one clicking thread and leaves
    the application as it was, not running: the second press, which
    finds [is_running] true, only clears the flag; it neither checks the
    window nor starts a thread. *)
Theorem toggle_twice_starts_one_thread a env w win p :
  is_running a = false ->
  selected_window a = Some win -> click_position a = Some p ->
  valid_at env (clock w) (hwnd win) = true ->
  exists a1 w1 w2,
    toggle_clicking a env w = (Ok a1, w1) /\ is_running a1 = true /\
    filter is_thread_start (events_since w w1) = [EvThreadStart] /\
    toggle_clicking a1 env w1 = (Ok a, w2) /\
    events_since w1 w2 =
      [EvConfig toggle_btn [("text"%string, lit "Start Auto Clicking (F6)")];
       EvConfig status_label
         [("text"%string, lit "INFO: Auto-clicking stopped");
          ("style"%string, lit "Status.TLabel")]].
Proof.
  intros Hrun Hw Hp Hv. unfold toggle_clicking. rewrite Hrun.
  unfold_ui. rewrite Hw, Hp. unfold valid_at in Hv. simpl. rewrite Hv. simpl.
  do 3 eexists. split; [reflexivity|]. split; [reflexivity|].
  split; [log_tail; reflexivity|].
  split.
  - destruct a; simpl in *. subst. reflexivity.
  - match goal with
    | |- events_since ?w1 ?w2 = _ =>
        apply (events_since_log w1 w2)
    end.
    simpl. rewrite <- !app_assoc. reflexivity.
Qed.

Lemma toggle_twice_starts_one_thread_witness :
  is_running Scenario.idle = false /\
  valid_at Scenario.still 0 7 = true /\
  exists a1 w1 w2,
    toggle_clicking Scenario.idle Scenario.still Scenario.start = (Ok a1, w1) /\
    is_running a1 = true /\
    filter is_thread_start (events_since Scenario.start w1) = [EvThreadStart] /\
    toggle_clicking a1 Scenario.still w1 = (Ok Scenario.idle, w2).
Proof.
  split; [reflexivity|]. split; [reflexivity|].
  destruct (toggle_twice_starts_one_thread Scenario.idle Scenario.still
              Scenario.start {| hwnd := 7; title := lit "abc" |}
              {| x := 100; y := 200 |} eq_refl eq_refl eq_refl eq_refl)
    as (a1 & w1 & w2 & H1 & H2 & H3 & H4 & _).
  exists a1, w1, w2. auto.
Defined.

(** *** Splitting a line of the list box *)

Lemma split_from_not_nil sep skip piece s : split_from sep skip piece s <> [].
Proof.
  revert skip piece. induction s as [|c s IH]; intros skip piece; simpl.
  - discriminate.
  - destruct skip; [|apply IH].
    destruct (is_prefix sep (c :: s)); [discriminate|apply IH].
Qed.

Lemma last_cons_not_nil {A} (a : A) l d : l <> [] -> last (a :: l) d = last l d.
Proof. destruct l; [congruence|reflexivity]. Qed.

Lemma split_from_cons sep piece c s :
  split_from sep 0 piece (c :: s) =
    if is_prefix sep (c :: s)
    then rev piece :: split_from sep (List.length sep - 1) [] s
    else split_from sep 0 (c :: piece) s.
Proof. reflexivity. Qed.

Lemma is_prefix_char c d s : is_prefix [c] (d :: s) = N.eqb c d.
Proof. simpl. apply andb_true_r. Qed.

(** Without the character, one piece. *)
Lemma split_from_char_absent c piece s :
  forallb (fun d => negb (N.eqb c d)) s = true ->
  split_from [c] 0 piece s = [rev piece ++ s].
Proof.
  revert piece. induction s as [|d s IH]; intros piece; simpl.
  - rewrite app_nil_r. reflexivity.
  - intros H. apply andb_true_iff in H. destruct H as [Hd Hs].
    apply negb_true_iff in Hd. rewrite Hd. simpl.
    rewrite (IH _ Hs). simpl. rewrite <- app_assoc. reflexivity.
Qed.

(** The last piece is what follows the last occurrence. *)
Lemma last_split_char c piece a b :
  forallb (fun d => negb (N.eqb c d)) b = true ->
  last (split_from [c] 0 piece (a ++ c :: b)) [] = b.
Proof.
  intros Hb. revert piece. induction a as [|d a IH]; intros piece.
  - rewrite app_nil_l, split_from_cons, is_prefix_char, N.eqb_refl.
    change (List.length [c] - 1)%nat with 0%nat.
    rewrite (split_from_char_absent c [] b Hb). reflexivity.
  - rewrite <- app_comm_cons, split_from_cons, is_prefix_char.
    change (List.length [c] - 1)%nat with 0%nat.
    destruct (N.eqb c d).
    + rewrite last_cons_not_nil by apply split_from_not_nil. apply IH.
    + apply IH.
Qed.

(** The first piece is what precedes the first occurrence. *)
Lemma hd_split_pair c1 c2 piece t r :
  c1 <> c2 ->
  contains [c1; c2] t = false ->
  hd [] (split_from [c1; c2] 0 piece (t ++ [c1; c2] ++ r)) = rev piece ++ t.
Proof.
  intros Hne. revert piece. induction t as [|d t IH]; intros piece Ht.
  - rewrite app_nil_l. change ([c1; c2] ++ r) with (c1 :: c2 :: r).
    rewrite split_from_cons. simpl is_prefix. rewrite !N.eqb_refl.
    simpl. rewrite app_nil_r. reflexivity.
  - simpl in Ht. apply orb_false_iff in Ht. destruct Ht as [Hhere Hrest].
    rewrite <- app_comm_cons, split_from_cons.
    assert (Hno : is_prefix [c1; c2] (d :: t ++ [c1; c2] ++ r) = false).
    { simpl. destruct (N.eqb c1 d); [|reflexivity]. simpl in Hhere |- *.
      destruct t as [|e t]; simpl in *.
      - rewrite andb_true_r. apply N.eqb_neq. congruence.
      - rewrite andb_true_r in *. exact Hhere. }
    rewrite Hno, (IH _ Hrest). simpl. rewrite <- app_assoc. reflexivity.
Qed.

(** The characters of [str(n)] lie between '-' and '9'. *)
Lemma str_of_uint_chars d :
  forallb (fun c => (45 <=? c) && (c <=? 57))%N
    (lit (NilEmpty.string_of_uint d)) = true.
Proof.
  induction d; simpl; try reflexivity; exact IHd.
Qed.

Lemma str_of_int_chars n :
  forallb (fun c => (45 <=? c) && (c <=? 57))%N (str_of_int n) = true.
Proof.
  unfold str_of_int, NilZero.string_of_int, NilZero.string_of_uint.
  destruct (Z.to_int n) as [d|d]; destruct d; simpl; try reflexivity;
    apply str_of_uint_chars.
Qed.

Lemma forallb_weaken {A} (p q : A -> bool) l :
  (forall a, p a = true -> q a = true) ->
  forallb p l = true -> forallb q l = true.
Proof.
  intros Hpq. induction l as [|a l IH]; simpl; [reflexivity|].
  intros H. apply andb_true_iff in H. destruct H as [Ha Hl].
  rewrite (Hpq a Ha), (IH Hl). reflexivity.
Qed.

Lemma rstrip_by_none p s :
  forallb (fun c => negb (p c)) s = true -> rstrip_by p s = s.
Proof.
  intros H. unfold rstrip_by. rewrite <- forallb_rev in H.
  destruct (rev s) as [|c r] eqn:Hrev.
  - apply (f_equal (@rev N)) in Hrev. rewrite rev_involutive in Hrev.
    rewrite Hrev. reflexivity.
  - simpl in H. apply andb_true_iff in H. destruct H as [Hc _].
    apply negb_true_iff in Hc. simpl. rewrite Hc.
    rewrite <- Hrev, rev_involutive. reflexivity.
Qed.

(** The handle of a line is read back whatever the title is. *)
Lemma line_hwnd_text (win : WindowInfo) :
  rstrip_chars (lit ")") (last (split (lit "(") (WindowInfo_str win)) [])
    = str_of_int (hwnd win).
Proof.
  unfold WindowInfo_str, split.
  change (lit " (") with ([32%N] ++ [40%N]). change (lit "(") with [40%N].
  change (lit ")") with [41%N].
  replace (title win ++ ([32%N] ++ [40%N]) ++ str_of_int (hwnd win) ++ [41%N])
    with ((title win ++ [32%N]) ++ 40%N :: (str_of_int (hwnd win) ++ [41%N]))
    by (rewrite <- !app_assoc; reflexivity).
  rewrite last_split_char.
  - unfold rstrip_chars.
    rewrite (rstrip_by_padding _ 41%N 1 (str_of_int (hwnd win))) by reflexivity.
    apply rstrip_by_none.
    refine (forallb_weaken _ _ _ _ (str_of_int_chars (hwnd win))).
    intros c H. apply andb_true_iff in H. destruct H as [Hlo Hhi].
    apply N.leb_le in Hlo. apply N.leb_le in Hhi.
    change (negb (N.eqb c 41 || false) = true). rewrite orb_false_r.
    apply negb_true_iff, N.eqb_neq. lia.
  - rewrite forallb_app. simpl. rewrite andb_true_r.
    refine (forallb_weaken _ _ _ _ (str_of_int_chars (hwnd win))).
    intros c H. apply andb_true_iff in H. destruct H as [Hlo Hhi].
    apply N.leb_le in Hlo. apply N.leb_le in Hhi.
    change (negb (N.eqb 40 c) = true).
    apply negb_true_iff, N.eqb_neq. lia.
Qed.

(** The title of a line is read up to its first " (". *)
Lemma line_title_text (t more : str) :
  contains (lit " (") t = false ->
  hd [] (split (lit " (") (t ++ lit " (" ++ more)) = t.
Proof.
  intros Ht. unfold split. change (lit " (") with [32%N; 40%N] in *.
  rewrite (hd_split_pair 32 40 [] t more); [reflexivity|discriminate|exact Ht].
Qed.

Lemma on_window_select_run int lines index rest a env w win t :
  nth index lines [] = WindowInfo_str win ->
  int (str_of_int (hwnd win)) = Ok (hwnd win) ->
  hd [] (split (lit " (") (WindowInfo_str win)) = t ->
  _on_window_select int lines (index :: rest) a env w =
    (Ok (set_selected_window (Some {| hwnd := hwnd win; title := t |}) a),
     {| clock := S (clock w);
        log := log w ++
               [EvConfig status_label
                  [("text"%string, lit "INFO: Selected window: " ++ t);
                   ("style"%string, lit "Status.TLabel")]] |}).
Proof.
  intros Hline Hint <-. unfold _on_window_select. cbv zeta.
  change (@nth str index lines [] = WindowInfo_str win) in Hline.
  rewrite Hline, line_hwnd_text, Hint. reflexivity.
Qed.

(** X16: a line of the list box is the title, " (", the handle in
    decimal and ")".  Selecting the line of a window whose title holds
    no " (" reads back that very window, handle and title, and shows
    its title in the status line.  ([int] is asked only to read back
    the decimal it is given.) *)
Theorem select_reads_back_the_listed_window
    int lines index rest a env w win :
  nth index lines [] = WindowInfo_str win ->
  int (str_of_int (hwnd win)) = Ok (hwnd win) ->
  contains (lit " (") (title win) = false ->
  _on_window_select int lines (index :: rest) a env w =
    (Ok (set_selected_window (Some win) a),
     {| clock := S (clock w);
        log := log w ++
               [EvConfig status_label
                  [("text"%string, lit "INFO: Selected window: " ++ title win);
                   ("style"%string, lit "Status.TLabel")]] |}).
Proof.
  intros Hline Hint Hclean.
  rewrite (on_window_select_run int lines index rest a env w win (title win)
             Hline Hint).
  - destruct win; reflexivity.
  - unfold WindowInfo_str. apply line_title_text. exact Hclean.
Qed.

Lemma select_reads_back_the_listed_window_witness :
  nth 0 [lit "abc (7)"; lit "Abd (9)"] [] =
    WindowInfo_str {| hwnd := 7; title := lit "abc" |} /\
  selected_window
    (set_selected_window (Some {| hwnd := 7; title := lit "abc" |}) Scenario.closed)
    = Some {| hwnd := 7; title := lit "abc" |} /\
  fst (_on_window_select Scenario.int [lit "abc (7)"; lit "Abd (9)"] [0%nat]
         Scenario.closed Scenario.still Scenario.start)
    = Ok (set_selected_window (Some {| hwnd := 7; title := lit "abc" |})
            Scenario.closed).
Proof.
  split; [reflexivity|]. split; [reflexivity|].
  rewrite (select_reads_back_the_listed_window Scenario.int
             [lit "abc (7)"; lit "Abd (9)"] 0 [] Scenario.closed
             Scenario.still Scenario.start {| hwnd := 7; title := lit "abc" |}
             eq_refl eq_refl eq_refl).
  reflexivity.
Defined.

(** X17: a title that holds " (" does not come back whole: the window
    selected has the handle of the line, but for title only what
    precedes the first " (" of the title. *)
Theorem select_cuts_the_title_at_its_first_parenthesis
    int lines index rest a env w win t more :
  nth index lines [] = WindowInfo_str win ->
  int (str_of_int (hwnd win)) = Ok (hwnd win) ->
  title win = t ++ lit " (" ++ more ->
  contains (lit " (") t = false ->
  _on_window_select int lines (index :: rest) a env w =
    (Ok (set_selected_window (Some {| hwnd := hwnd win; title := t |}) a),
     {| clock := S (clock w);
        log := log w ++
               [EvConfig status_label
                  [("text"%string, lit "INFO: Selected window: " ++ t);
                   ("style"%string, lit "Status.TLabel")]] |}).
Proof.
  intros Hline Hint Htitle Hclean.
  apply (on_window_select_run int lines index rest a env w win t Hline Hint).
  unfold WindowInfo_str. rewrite Htitle, <- !app_assoc.
  apply line_title_text. exact Hclean.
Qed.

Lemma select_cuts_the_title_at_its_first_parenthesis_witness :
  nth 0 [lit "Notes (draft) (42)"] [] =
    WindowInfo_str {| hwnd := 42; title := lit "Notes (draft)" |} /\
  fst (_on_window_select Scenario.int [lit "Notes (draft) (42)"] [0%nat]
         Scenario.closed Scenario.still Scenario.start)
    = Ok (set_selected_window (Some {| hwnd := 42; title := lit "Notes" |})
            Scenario.closed).
Proof.
  split; [reflexivity|].
  rewrite (select_cuts_the_title_at_its_first_parenthesis Scenario.int
             [lit "Notes (draft) (42)"] 0 [] Scenario.closed
             Scenario.still Scenario.start
             {| hwnd := 42; title := lit "Notes (draft)" |}
             (lit "Notes") (lit "draft)") eq_refl eq_refl eq_refl eq_refl).
  reflexivity.
Defined.

(** X18: refreshing the list never takes the error branch.  Whatever
    the system answers, [refresh_window_list] returns one line per
    window [enumerate_windows] found, in the same order, and shows
    "Found n windows" with their number as an INFO status.  Selecting
    the i-th of these lines selects a window with the handle of the
    i-th window found, whatever its title is. *)
Theorem refresh_then_select_picks_the_handle int lower env w :
  exists l w1,
    WindowsAPI.enumerate_windows lower env w = (Ok l, w1) /\
    refresh_window_list lower env w =
      (Ok (map WindowInfo_str l),
       {| clock := S (clock w1);
          log := log w1 ++
                 [EvConfig status_label
                    [("text"%string,
                      lit "INFO: Found " ++
                      str_of_int (Z.of_nat (List.length l)) ++ lit " windows");
                     ("style"%string, lit "Status.TLabel")]] |}) /\
    forall i win rest a env' w',
      nth_error l i = Some win ->
      int (str_of_int (hwnd win)) = Ok (hwnd win) ->
      exists t w2,
        _on_window_select int (map WindowInfo_str l) (i :: rest) a env' w' =
          (Ok (set_selected_window (Some {| hwnd := hwnd win; title := t |}) a),
           w2).
Proof.
  destruct (enumerate_windows_only_asks lower env w)
    as (l & w1 & evs & Hrun & _).
  exists l, w1. split; [exact Hrun|]. split.
  - unfold refresh_window_list, try_except, bind. rewrite Hrun.
    unfold _update_status, emit, call, ret. simpl. reflexivity.
  - intros i win rest a env' w' Hi Hint.
    do 2 eexists.
    apply (on_window_select_run int _ i rest a env' w' win _); [|exact Hint|].
    + apply nth_error_nth. rewrite nth_error_map, Hi. reflexivity.
    + reflexivity.
Qed.
